(** * A shallow embedding of src/app.py (teacher-transfer school ranking)

    The file models the resolution-and-ranking core of [app.py]:
    [load_cache], [save_cache], [geocode_address_nominatim] and [process].
    Effects are made explicit in a small state/exception monad:
    - the in-memory geocode cache dict of the current run ([cache]),
    - the JSON file geo_cache.json ([disk]),
    - the number of external geocoder calls issued so far ([ncalls]),
    - an event trace of external calls, sleeps, printed errors and saves.
    The geocoder ([Nominatim.geocode]) is an oracle that may depend on the
    call number, so a provider whose answers vary over time is covered.
    Geodesic distances are an oracle into [res Z]: a distance (the code
    only compares them) or the exception geopy raises, such as its
    ValueError for a latitude outside [-90, 90].
    Module-level names are looked up in a global environment [genv], as
    Python does when [process] evaluates the name [DISTRICT]. *)

From Stdlib Require Import String ZArith List Sorted Permutation Lia.
From stdpp Require Import base gmap strings list.

(** ** Python exceptions, by class name *)

(** An exception: the name of its class and the names of the classes
    after it in the class's method resolution order ([type(e).__mro__]). *)
Inductive exn := PyExc (cls : string) (bases : list string).

(** [isinstance(e, Exception)], i.e. what [except Exception] catches:
    [Exception] is in the class's MRO. BaseException-only classes
    (KeyboardInterrupt, SystemExit, GeneratorExit, asyncio.CancelledError,
    BaseExceptionGroup, BaseException itself) are not caught. *)
Definition is_Exception (e : exn) : bool :=
  match e with
  | PyExc cls bases => existsb (String.eqb "Exception") (cls :: bases)
  end.

Definition NameError : exn := PyExc "NameError" ["Exception"; "BaseException"; "object"].
Definition ValueError : exn := PyExc "ValueError" ["Exception"; "BaseException"; "object"].
Definition KeyError : exn :=
  PyExc "KeyError" ["LookupError"; "Exception"; "BaseException"; "object"].

(** ** Coordinates, geocoder outcomes, events, state *)

Definition coords := (Z * Z)%type.

(** What one call [geolocator.geocode(address, timeout=10)] does:
    a location, [None] (empty result), or an exception (timeout,
    transport error, ...). *)
Inductive geo_result :=
| GFound (c : coords)
| GNone
| GRaise (e : exn).

Inductive event :=
| ExtCall (address : string)                 (* geolocator.geocode(...) *)
| Sleep (secs : nat)                         (* time.sleep(secs) *)
| LogError (address : string) (e : exn)      (* print(f"Error for ...") *)
| SaveCache (snapshot : gmap string coords). (* json.dump to geo_cache.json *)

Record St := mkSt {
  cache : gmap string coords;
  disk : option (gmap string coords);
  ncalls : nat;
  trace : list event }.

Definition set_cache (s : St) (c : gmap string coords) : St :=
  mkSt c (disk s) (ncalls s) (trace s).

Definition emit (s : St) (ev : event) : St :=
  mkSt (cache s) (disk s) (ncalls s) (trace s ++ [ev]).

(** ** The monad: state passing with Python exceptions *)

Inductive res (A : Type) := Ok (a : A) | Err (e : exn).
Arguments Ok {A} a.
Arguments Err {A} e.

Definition M (A : Type) := St -> res A * St.

Definition ret {A} (a : A) : M A := fun s => (Ok a, s).
Definition raise {A} (e : exn) : M A := fun s => (Err e, s).
Definition bind {A B} (m : M A) (k : A -> M B) : M B := fun s =>
  match m s with
  | (Ok a, s') => k a s'
  | (Err e, s') => (Err e, s')
  end.

Notation "x <- m ;; k" := (bind m (fun x => k))
  (at level 100, m at next level, right associativity).

(** [for x in xs: body] with the loop-carried lists as accumulator. *)
Fixpoint for_each {A S} (xs : list A) (acc : S) (body : A -> S -> M S) : M S :=
  match xs with
  | [] => ret acc
  | x :: xs' => acc' <- body x acc ;; for_each xs' acc' body
  end.

(** Fallible pure code (pandas and list operations) returns [res]. *)
Definition lift {A} (r : res A) : M A := fun s => (r, s).

Definition bindR {A B} (r : res A) (k : A -> res B) : res B :=
  match r with
  | Ok a => k a
  | Err e => Err e
  end.

Fixpoint mapR {A B} (f : A -> res B) (l : list A) : res (list B) :=
  match l with
  | [] => Ok []
  | x :: l' => bindR (f x) (fun y => bindR (mapR f l') (fun ys => Ok (y :: ys)))
  end.

Definition sleep (secs : nat) : M unit := fun s => (Ok tt, emit s (Sleep secs)).

(** ** Cache file: [load_cache] and [save_cache] *)

Definition load_cache : M (gmap string coords) := fun s =>
  match disk s with
  | Some c => (Ok c, s)
  | None => (Ok ∅, s)
  end.

(** [cache = load_cache()]: the run works on the loaded dict. *)
Definition assign_cache (c : gmap string coords) : M unit := fun s =>
  (Ok tt, set_cache s c).

Definition save_cache : M unit := fun s =>
  (Ok tt, mkSt (cache s) (Some (cache s)) (ncalls s) (trace s ++ [SaveCache (cache s)])).

(** ** [geocode_address_nominatim] (lines 23-34) *)

Definition geocode_address_nominatim
    (geolocator : nat -> string -> geo_result) (address : string)
    : M (option coords) := fun s =>
  match cache s !! address with
  | Some c => (Ok (Some c), s)
  | None =>
      let s1 := mkSt (cache s) (disk s) (S (ncalls s)) (trace s ++ [ExtCall address]) in
      match geolocator (ncalls s) address with
      | GFound c => (Ok (Some c), set_cache s1 (<[address:=c]> (cache s1)))
      | GNone => (Ok None, s1)
      | GRaise e =>
          if is_Exception e then (Ok None, emit s1 (LogError address e))
          else (Err e, s1)
      end
  end.

(** ** Data frames *)

(** One spreadsheet row: the columns School, Mandal, Category. *)
Record Row := mkRow { School : string; Mandal : string; Category : Z }.

(** The frame returned by [pd.read_excel]: its column names and rows
    (labelled 0, 1, ... by the default RangeIndex). *)
Record InFrame := mkInFrame { columns : list string; rows : list Row }.

(** A row with its index label and its Distance_km cell ([None] = NaN). *)
Record DRow := mkDRow { d_idx : nat; d_row : Row; d_dist : option Z }.

(** A row with the PriorityIndex column added. *)
Record PRow := mkPRow { p_idx : nat; p_row : Row; p_dist : option Z; p_prio : nat }.

(** An output row: School, Mandal, Category, Distance_km. *)
Definition OutRow := (Row * option Z)%type.

Definition project (p : PRow) : OutRow := (p_row p, p_dist p).

(** [df.iterrows()] on the RangeIndex frame. *)
Definition iterrows (rs : list Row) : list (nat * Row) :=
  zip (seq 0 (length rs)) rs.

Definition has_column (df : InFrame) (col : string) : bool :=
  existsb (String.eqb col) (columns df).

(** [all(col in df.columns for col in ["School", "Mandal", "Category"])] *)
Definition has_required_columns (df : InFrame) : bool :=
  forallb (has_column df) ["School"; "Mandal"; "Category"]%string.

(** [df['Distance_km'] = values]: pandas raises ValueError when the list
    length differs from the frame length. *)
Definition set_distance (df : list DRow) (ds : list (option Z)) : res (list DRow) :=
  if Nat.eqb (length df) (length ds)
  then Ok (zip_with (fun d x => mkDRow (d_idx d) (d_row d) x) df ds)
  else Err ValueError.

(** [df.dropna(subset=["Distance_km"])] *)
Definition dropna (df : list DRow) : list DRow :=
  List.filter (fun d => match d_dist d with Some _ => true | None => false end) df.

(** [df.loc[labels]]: KeyError for a label absent from the index. *)
Definition loc (df : list DRow) (labels : list nat) : res (list DRow) :=
  mapR (fun i =>
          match List.find (fun d => Nat.eqb (d_idx d) i) df with
          | Some d => Ok d
          | None => Err KeyError
          end) labels.

(** [list.index(c)]: the first position of [c], ValueError if absent. *)
Fixpoint py_index (l : list Z) (c : Z) : option nat :=
  match l with
  | [] => None
  | x :: l' => if Z.eqb x c then Some 0 else option_map S (py_index l' c)
  end.

Definition list_index (l : list Z) (c : Z) : res nat :=
  match py_index l c with
  | Some n => Ok n
  | None => Err ValueError
  end.

(** [df['PriorityIndex'] = df['Category'].apply(lambda c: category_priority.index(c))] *)
Definition add_priority (category_priority : list Z) (df : list DRow) : res (list PRow) :=
  mapR (fun d =>
          bindR (list_index category_priority (Category (d_row d)))
            (fun p => Ok (mkPRow (d_idx d) (d_row d) (d_dist d) p))) df.

(** ** [sort_values(by=["PriorityIndex", "Distance_km"])]

    With several keys pandas sorts lexicographically and stably (the
    [kind] argument only applies to single-key sorts); NaN is placed last
    in each key ([na_position='last']). A stable sort is determined by its
    order, so insertion sort computes the same result. *)

Definition dist_le (a b : option Z) : bool :=
  match a, b with
  | Some x, Some y => Z.leb x y
  | Some _, None => true
  | None, Some _ => false
  | None, None => true
  end.

Definition key_le (a b : PRow) : bool :=
  Nat.ltb (p_prio a) (p_prio b)
  || (Nat.eqb (p_prio a) (p_prio b) && dist_le (p_dist a) (p_dist b)).

Fixpoint ins (x : PRow) (l : list PRow) : list PRow :=
  match l with
  | [] => [x]
  | y :: t => if key_le x y then x :: y :: t else y :: ins x t
  end.

Fixpoint sort_values (l : list PRow) : list PRow :=
  match l with
  | [] => []
  | x :: t => ins x (sort_values t)
  end.

(** ** Module globals of app.py

    Names are resolved at call time in the module's global namespace;
    each bound name is mapped to the text [str()] gives for it. The
    names bound at the top level of app.py (imports, the functions, and
    the variables of the Streamlit script that exist when [process] is
    called): none of them is [DISTRICT], and it is not a builtin either. *)
Definition app_globals : gmap string string :=
  list_to_map
    [("st", "<module 'streamlit'>"); ("pd", "<module 'pandas'>");
     ("Nominatim", "<class 'Nominatim'>"); ("geodesic", "<class 'geodesic'>");
     ("json", "<module 'json'>"); ("os", "<module 'os'>");
     ("sleep", "<built-in function sleep>"); ("BytesIO", "<class 'BytesIO'>");
     ("tqdm", "<class 'tqdm'>"); ("load_cache", "<function load_cache>");
     ("save_cache", "<function save_cache>");
     ("geocode_address_nominatim", "<function geocode_address_nominatim>");
     ("load_xlsx_data", "<function load_xlsx_data>");
     ("process", "<function process>"); ("uploaded_file", "<UploadedFile>");
     ("user_location", ""); ("geolocator", "<Nominatim>");
     ("cache", "{}"); ("user_coords", "(0.0, 0.0)");
     ("category_priority", "[4, 3, 2, 1]"); ("lat", "0.0"); ("lon", "0.0")]%string.

Section Process.

(** The module's global namespace at the time [process] runs. *)
Variable genv : gmap string string.
(** [Nominatim(...).geocode]: the outcome of the n-th external call. *)
Variable geolocator : nat -> string -> geo_result.
(** [geodesic(a, b).km]: the distance, or the exception geopy raises
    (ValueError for a latitude outside [-90, 90]). *)
Variable geodesic_km : coords -> coords -> res Z.

(** Evaluating a global name: NameError when unbound. *)
Definition lookup_global (name : string) : M string :=
  match genv !! name with
  | Some v => ret v
  | None => raise NameError
  end.

(** [f"{row['School']}, {row['Mandal']}, {DISTRICT}, Andhra Pradesh"] *)
Definition full_address (r : Row) (district : string) : string :=
  (School r ++ ", " ++ Mandal r ++ ", " ++ district ++ ", Andhra Pradesh")%string.

(** [f"{row['Mandal']}, {DISTRICT}, Andhra Pradesh"] *)
Definition mandal_address (r : Row) (district : string) : string :=
  (Mandal r ++ ", " ++ district ++ ", Andhra Pradesh")%string.

(** Body of the first loop (lines 61-70); the accumulator is
    [(distances, missing_rows)]. *)
Definition pass1_body (user : coords) (ir : nat * Row)
    (acc : list (option Z) * list nat) : M (list (option Z) * list nat) :=
  let '(idx, row) := ir in
  let '(distances, missing_rows) := acc in
  district <- lookup_global "DISTRICT" ;;
  let address := full_address row district in
  c <- geocode_address_nominatim geolocator address ;;
  _ <- sleep 1 ;;
  match c with
  | Some cs =>
      dist <- lift (geodesic_km user cs) ;;
      ret (distances ++ [Some dist], missing_rows)
  | None => ret (distances ++ [None], missing_rows ++ [idx])
  end.

(** Body of the second loop (lines 88-96); the accumulator is
    [missing_distances]. *)
Definition pass2_body (user : coords) (d : DRow)
    (missing_distances : list (option Z)) : M (list (option Z)) :=
  district <- lookup_global "DISTRICT" ;;
  let address := mandal_address (d_row d) district in
  c <- geocode_address_nominatim geolocator address ;;
  _ <- sleep 1 ;;
  match c with
  | Some cs =>
      dist <- lift (geodesic_km user cs) ;;
      ret (missing_distances ++ [Some dist])
  | None => ret (missing_distances ++ [None])
  end.

(** The first loop over [df.iterrows()]. *)
Definition pass1 (user : coords) (rs : list Row) : M (list (option Z) * list nat) :=
  for_each (iterrows rs) ([], []) (pass1_body user).

(** The frame [df] with an (empty) Distance_km column. *)
Definition to_drows (rs : list Row) : list DRow :=
  map (fun ir => mkDRow (fst ir) (snd ir) None) (iterrows rs).

(** [process(xlsx_file, user_coords, category_priority)] (lines 42-111);
    [None] is the [return None] of the two early exits, [Some final_df]
    the rows written to the output workbook. *)
Definition process (df : InFrame) (user_coords : option coords)
    (category_priority : list Z) : M (option (list OutRow)) :=
  if negb (has_required_columns df) then ret None else
  c0 <- load_cache ;;
  _ <- assign_cache c0 ;;
  match user_coords with
  | None => ret None
  | Some user =>
      acc <- pass1 user (rows df) ;;
      let '(distances, missing_rows) := acc in
      _ <- save_cache ;;
      dfd <- lift (set_distance (to_drows (rows df)) distances) ;;
      let df_valid := dropna dfd in
      df_missing <- lift (loc dfd missing_rows) ;;
      df_valid_p <- lift (add_priority category_priority df_valid) ;;
      let df_valid_sorted := sort_values df_valid_p in
      missing_distances <- for_each df_missing [] (pass2_body user) ;;
      df_missing' <- lift (set_distance df_missing missing_distances) ;;
      df_missing_p <- lift (add_priority category_priority df_missing') ;;
      let df_missing_sorted := sort_values df_missing_p in
      ret (Some (map project (df_valid_sorted ++ df_missing_sorted)))
  end.

End Process.

(** ** Concrete inputs *)

(** The module namespace once an importer binds the missing name, e.g.
    [app.DISTRICT = "Bapatla"]. *)
Definition bapatla_globals : gmap string string :=
  <["DISTRICT":="Bapatla"]> app_globals.

(** A geocoder that finds nothing for school S's full address, finds its
    Mandal M, and finds every other address. *)
Definition demo_geocoder (n : nat) (a : string) : geo_result :=
  if String.eqb a "S, M, Bapatla, Andhra Pradesh" then GNone
  else if String.eqb a "M, Bapatla, Andhra Pradesh" then GFound (1, 2)%Z
  else GFound (5, 5)%Z.

(** A stand-in distance (Manhattan distance on the grid) that, like
    geopy, raises ValueError for a latitude outside [-90, 90]. *)
Definition demo_km (a b : coords) : res Z :=
  if (Z.abs (fst a) <=? 90)%Z && (Z.abs (fst b) <=? 90)%Z
  then Ok (Z.abs (fst a - fst b) + Z.abs (snd a - snd b))%Z
  else Err ValueError.

(** geopy's [GeocoderTimedOut]. *)
Definition GeocoderTimedOut : exn :=
  PyExc "GeocoderTimedOut" ["GeocoderServiceError"; "GeopyError"; "Exception"; "BaseException"; "object"].

(** [asyncio.CancelledError], a BaseException-only class since Python 3.8. *)
Definition CancelledError : exn := PyExc "CancelledError" ["BaseException"; "object"].

Definition empty_state : St := mkSt ∅ None 0 [].

Definition demo_columns : list string := ["School"; "Mandal"; "Category"]%string.

(** The default priority of the Streamlit script, [[4, 3, 2, 1]]. *)
Definition default_priority : list Z := [4; 3; 2; 1]%Z.

Definition demo_df : InFrame :=
  mkInFrame demo_columns [mkRow "S" "M" 4; mkRow "T" "M" 1]%string.

(** Is an event a printed error? *)
Definition is_log (ev : event) : bool :=
  match ev with LogError _ _ => true | _ => false end.

(** ** Auxiliary definitions for the proofs *)


(** Records with the same (PriorityIndex, Distance_km) key. *)
Definition same_key (a b : PRow) : bool :=
  bool_decide (p_prio a = p_prio b /\ p_dist a = p_dist b).

Definition with_dist (ir : nat * Row) (o : option Z) : DRow :=
  mkDRow (fst ir) (snd ir) o.

Definition is_missing (d : DRow) : bool :=
  match d_dist d with None => true | Some _ => false end.


(** The state [process] works in after [cache = load_cache()]. *)
Definition loaded (s : St) : St :=
  set_cache s (match disk s with Some c => c | None => ∅ end).

(** The frame [df] after [df['Distance_km'] = distances]. *)
Definition dfd_of (rs : list Row) (outs : list (option Z)) : list DRow :=
  zip_with with_dist (iterrows rs) outs.


(** The events of one [geocode_address_nominatim] call that returns:
    nothing (served from the cache), the external call, or the external
    call and the printed error. *)
Inductive resolve_events : list event -> Prop :=
| re_cached : resolve_events []
| re_called a : resolve_events [ExtCall a]
| re_logged a e : resolve_events [ExtCall a; LogError a e].

(** [n] resolves, each followed by one [sleep(1)]. *)
Inductive paced : nat -> list event -> Prop :=
| paced_nil : paced 0 []
| paced_step n e rest : resolve_events e -> paced n rest -> paced (S n) (e ++ Sleep 1 :: rest).

(** The demo run: school S falls back to its Mandal, school T resolves. *)
Definition demo_out : list OutRow :=
  [(mkRow "T" "M" 1, Some 10%Z); (mkRow "S" "M" 4, Some 3%Z)]%string.

(** Is an event a save of the cache file? *)
Definition is_save (ev : event) : bool :=
  match ev with SaveCache _ => true | _ => false end.

(** The dict [load_cache()] returns for a state: the cache file, or [{}]. *)
Definition disk_map (s : St) : gmap string coords :=
  match disk s with Some c => c | None => ∅ end.


(** A coordinate pair a run can meet: one the geocoder returns, or one
    stored in the cache file [D]. *)
Definition met (geolocator : nat -> string -> geo_result) (D : gmap string coords)
    (c : coords) : Prop :=
  (exists n a, geolocator n a = GFound c) \/ (exists a, D !! a = Some c).

(** Every coordinate pair in the in-memory cache is one the run can meet. *)
Definition cache_met (geolocator : nat -> string -> geo_result) (D : gmap string coords)
    (s : St) : Prop :=
  forall a c, cache s !! a = Some c -> met geolocator D c.

(** The part of [process] after [cache = load_cache()] when [user_coords]
    is truthy: lines 57-111, step for step as in [process]. *)
Definition process_rest (genv : gmap string string)
    (geolocator : nat -> string -> geo_result) (geodesic_km : coords -> coords -> res Z)
    (df : InFrame) (user : coords) (category_priority : list Z)
    : M (option (list OutRow)) :=
  acc <- pass1 genv geolocator geodesic_km user (rows df) ;;
  let '(distances, missing_rows) := acc in
  _ <- save_cache ;;
  dfd <- lift (set_distance (to_drows (rows df)) distances) ;;
  let df_valid := dropna dfd in
  df_missing <- lift (loc dfd missing_rows) ;;
  df_valid_p <- lift (add_priority category_priority df_valid) ;;
  let df_valid_sorted := sort_values df_valid_p in
  missing_distances <- for_each df_missing [] (pass2_body genv geolocator geodesic_km user) ;;
  df_missing' <- lift (set_distance df_missing missing_distances) ;;
  df_missing_p <- lift (add_priority category_priority df_missing') ;;
  let df_missing_sorted := sort_values df_missing_p in
  ret (Some (map project (df_valid_sorted ++ df_missing_sorted))).

(** A state property kept by a computation, whatever its outcome. *)
Definition preserves (P : St -> Prop) {A} (m : M A) : Prop :=
  forall s r s', P s -> m s = (r, s') -> P s'.

(** A state property untouched by appending an event to the trace. *)
Definition emit_stable (P : St -> Prop) : Prop := forall s ev, P s -> P (emit s ev).

(** A computation that issues at most [k] external geocoder calls,
    whatever its outcome. *)
Definition costs (k : nat) {A} (m : M A) : Prop :=
  forall s r s', m s = (r, s') -> ncalls s' <= ncalls s + k.

(** A cache file holding school T's full address. *)
Definition demo_file_state : St :=
  mkSt ∅ (Some {["T, M, Bapatla, Andhra Pradesh" := (5, 5)%Z]}) 0 [].

(** A cache file holding the full addresses of both schools of [demo_df]. *)
Definition demo_full_file_state : St :=
  mkSt ∅ (Some (<["S, M, Bapatla, Andhra Pradesh" := (3, 4)%Z]>
                {["T, M, Bapatla, Andhra Pradesh" := (5, 5)%Z]})) 0 [].

(** A geocoder that finds every address, school S's full address too. *)
Definition demo_found_geocoder (n : nat) (a : string) : geo_result :=
  if String.eqb a "S, M, Bapatla, Andhra Pradesh" then GFound (3, 4)%Z else demo_geocoder n a.

(** ** The Streamlit script (lines 164-186)

    The branch taken when a location was typed: the script loads the
    cache, geocodes the location through it, and calls [process] with the
    priority list typed by the user, [[4, 3, 2, 1]] when none was typed.
    [entered] is [list(map(int, ....split()))] of the priority text box;
    the uploaded workbook is [df]. [None] stands for the branches that
    show an error or no download button. *)
Definition ui_location_branch (genv : gmap string string)
    (geolocator : nat -> string -> geo_result) (geodesic_km : coords -> coords -> res Z)
    (df : InFrame) (user_location : string) (entered : list Z)
    : M (option (list OutRow)) :=
  cache <- load_cache ;;
  _ <- assign_cache cache ;;
  user_coords <- geocode_address_nominatim geolocator (user_location ++ ", Andhra Pradesh") ;;
  match user_coords with
  | Some u =>
      let category_priority := match entered with [] => [4; 3; 2; 1]%Z | _ => entered end in
      process genv geolocator geodesic_km df (Some u) category_priority
  | None => ret None
  end.

Example demo_run_output :
  fst (process bapatla_globals demo_geocoder demo_km demo_df
         (Some (0, 0)%Z) default_priority empty_state)
  = Ok (Some [(mkRow "T" "M" 1, Some 10%Z); (mkRow "S" "M" 4, Some 3%Z)]%string).
Proof. vm_compute. reflexivity. Qed.

(** ** Monad lemmas *)

Lemma bind_ok_inv {A B} (m : M A) (k : A -> M B) s b s' :
  bind m k s = (Ok b, s') -> exists a s1, m s = (Ok a, s1) /\ k a s1 = (Ok b, s').
Proof. unfold bind. destruct (m s) as [[a|e] s1]; intros H; [eauto|discriminate]. Qed.

Lemma bind_ok {A B} (m : M A) (k : A -> M B) s a s1 :
  m s = (Ok a, s1) -> bind m k s = k a s1.
Proof. unfold bind. intros ->. reflexivity. Qed.

Lemma bind_err {A B} (m : M A) (k : A -> M B) s e s1 :
  m s = (Err e, s1) -> bind m k s = (Err e, s1).
Proof. unfold bind. intros ->. reflexivity. Qed.

Lemma app_globals_DISTRICT : app_globals !! "DISTRICT"%string = None.
Proof. vm_compute. reflexivity. Qed.

(** ** C1 *)

(** C1: with the module as shipped ([DISTRICT] is bound nowhere in
    app.py), [process] on a spreadsheet with the required columns and at
    least one row raises NameError while building the first full address:
    no output table is produced, no geocoder call is made, nothing is
    saved to the cache file and the trace is unchanged. *)
Theorem process_shipped_NameError geolocator geodesic_km df user prio s :
  has_required_columns df = true -> rows df <> [] ->
  fst (process app_globals geolocator geodesic_km df (Some user) prio s) = Err NameError /\
  disk (snd (process app_globals geolocator geodesic_km df (Some user) prio s)) = disk s /\
  trace (snd (process app_globals geolocator geodesic_km df (Some user) prio s)) = trace s.
Proof.
  intros Hc Hne.
  destruct (rows df) as [|r rs] eqn:Er; [congruence|].
  unfold process. rewrite Hc. cbv beta iota delta [negb].
  unfold bind at 1 2, assign_cache, pass1, iterrows; rewrite Er; simpl.
  unfold bind, pass1_body, lookup_global; rewrite app_globals_DISTRICT.
  unfold load_cache; destruct (disk s) eqn:Ed; simpl; rewrite ?Ed; auto.
Qed.

Lemma process_shipped_NameError_witness :
  has_required_columns demo_df = true /\ rows demo_df <> [] /\
  fst (process app_globals demo_geocoder demo_km demo_df (Some (0, 0)%Z) default_priority empty_state)
    = Err NameError.
Proof.
  split; [reflexivity|]. split; [discriminate|].
  apply (process_shipped_NameError demo_geocoder demo_km demo_df (0, 0)%Z default_priority
           empty_state); [reflexivity | discriminate].
Defined.

(** ** C2 *)

(** C2 (counterexample): an address the geocoder does not find is not
    cached, so resolving it twice makes two external calls and leaves no
    cache entry. *)
Lemma resolve_twice_not_found_calls_twice :
  ncalls (snd ((_ <- geocode_address_nominatim demo_geocoder "S, M, Bapatla, Andhra Pradesh" ;;
                geocode_address_nominatim demo_geocoder "S, M, Bapatla, Andhra Pradesh")
                 empty_state)) = 2 /\
  cache (snd ((_ <- geocode_address_nominatim demo_geocoder "S, M, Bapatla, Andhra Pradesh" ;;
                geocode_address_nominatim demo_geocoder "S, M, Bapatla, Andhra Pradesh")
                 empty_state)) !! "S, M, Bapatla, Andhra Pradesh"%string = None.
Proof. split; reflexivity. Qed.

(** C2 (amended): for an address already in the cache,
    [geocode_address_nominatim] returns the cached coordinates and leaves
    the state untouched: no external call (the call counter and the trace
    are unchanged) and the cache is unchanged; resolving it twice in a row
    does the same. A resolve that returns coordinates leaves them in the
    cache after at most one external call, so a second resolve of that
    address makes no call. A resolve that finds nothing (empty result or
    caught error) made an external call and stored nothing, so resolving
    that address again makes another external call. *)
Theorem resolve_cached_no_call geolocator a :
  (forall c s, cache s !! a = Some c ->
   geocode_address_nominatim geolocator a s = (Ok (Some c), s) /\
   (_ <- geocode_address_nominatim geolocator a ;; geocode_address_nominatim geolocator a) s
     = (Ok (Some c), s)) /\
  (forall c s s1, geocode_address_nominatim geolocator a s = (Ok (Some c), s1) ->
   cache s1 !! a = Some c /\ ncalls s1 <= S (ncalls s) /\
   geocode_address_nominatim geolocator a s1 = (Ok (Some c), s1)) /\
  (forall s s1, geocode_address_nominatim geolocator a s = (Ok None, s1) ->
   cache s1 = cache s /\ cache s1 !! a = None /\ ncalls s1 = S (ncalls s) /\
   forall r s2, geocode_address_nominatim geolocator a s1 = (r, s2) -> ncalls s2 = S (ncalls s1)).
Proof.
  split; [|split].
  - intros c s H. unfold bind, geocode_address_nominatim. rewrite H. simpl. rewrite H. auto.
  - intros c s s1. unfold geocode_address_nominatim at 1.
    destruct (cache s !! a) as [c0|] eqn:Hc.
    + intros E. injection E as E1 E2. subst.
      unfold geocode_address_nominatim. rewrite Hc. auto.
    + destruct (geolocator (ncalls s) a) as [c0| |e].
      * intros E. injection E as E1 E2. subst. simpl.
        assert (Hl : <[a:=c]> (cache s) !! a = Some c) by apply lookup_insert_eq.
        split; [exact Hl|]. split; [lia|].
        unfold geocode_address_nominatim. simpl. rewrite Hl. reflexivity.
      * discriminate.
      * destruct (is_Exception e); discriminate.
  - intros s s1. unfold geocode_address_nominatim at 1.
    destruct (cache s !! a) as [c0|] eqn:Hc; [discriminate|].
    assert (Hmiss : forall st, cache st = cache s ->
              forall r s2, geocode_address_nominatim geolocator a st = (r, s2) ->
              ncalls s2 = S (ncalls st)).
    { intros st Est r s2. unfold geocode_address_nominatim. rewrite Est, Hc.
      destruct (geolocator (ncalls st) a) as [c1| |e];
        [intros E; injection E as _ <-; reflexivity|intros E; injection E as _ <-; reflexivity|].
      destruct (is_Exception e); intros E; injection E as _ <-; reflexivity. }
    destruct (geolocator (ncalls s) a) as [c1| |e].
    + discriminate.
    + intros E. injection E as <-. simpl.
      split; [reflexivity|]. split; [exact Hc|]. split; [reflexivity|].
      apply Hmiss. reflexivity.
    + destruct (is_Exception e); [|discriminate]. intros E. injection E as <-. simpl.
      split; [reflexivity|]. split; [exact Hc|]. split; [reflexivity|].
      apply Hmiss. reflexivity.
Qed.

Lemma resolve_cached_no_call_witness :
  cache (mkSt {["Bapatla, Andhra Pradesh" := (15, 80)%Z]} None 0 []) !! "Bapatla, Andhra Pradesh"%string
    = Some (15, 80)%Z /\
  geocode_address_nominatim demo_geocoder "Bapatla, Andhra Pradesh"
    (mkSt {["Bapatla, Andhra Pradesh" := (15, 80)%Z]} None 0 [])
  = (Ok (Some (15, 80)%Z), mkSt {["Bapatla, Andhra Pradesh" := (15, 80)%Z]} None 0 []).
Proof.
  split; [reflexivity|].
  apply (proj1 (resolve_cached_no_call demo_geocoder "Bapatla, Andhra Pradesh")
           (15, 80)%Z (mkSt {["Bapatla, Andhra Pradesh" := (15, 80)%Z]} None 0 [])).
  reflexivity.
Defined.

(** ** C8 *)

(** C8 (counterexample): an empty geocoder result for an uncached address
    is turned into [None] but nothing is printed: the trace holds the
    external call and no error line. *)
Lemma resolve_empty_result_not_logged :
  fst (geocode_address_nominatim demo_geocoder "S, M, Bapatla, Andhra Pradesh" empty_state)
    = Ok None /\
  existsb is_log
    (trace (snd (geocode_address_nominatim demo_geocoder "S, M, Bapatla, Andhra Pradesh"
                   empty_state))) = false.
Proof. split; reflexivity. Qed.

(** C8 (amended): [geocode_address_nominatim] never lets an error of
    class Exception (timeout, transport error, ...) reach its caller;
    on such an error for an uncached address it makes the call, prints the
    address and the error, and returns [None]; on an empty result it makes
    the call and returns [None] without printing anything; an error whose
    class is not a subclass of Exception (KeyboardInterrupt,
    asyncio.CancelledError, ...) propagates to the caller after the call,
    with nothing printed. *)
Theorem resolve_contains_errors geolocator a s :
  ((forall e, geolocator (ncalls s) a = GRaise e -> is_Exception e = true) ->
   exists r, fst (geocode_address_nominatim geolocator a s) = Ok r) /\
  (forall e, cache s !! a = None -> geolocator (ncalls s) a = GRaise e ->
   is_Exception e = true ->
   fst (geocode_address_nominatim geolocator a s) = Ok None /\
   trace (snd (geocode_address_nominatim geolocator a s))
     = trace s ++ [ExtCall a; LogError a e]) /\
  (cache s !! a = None -> geolocator (ncalls s) a = GNone ->
   fst (geocode_address_nominatim geolocator a s) = Ok None /\
   trace (snd (geocode_address_nominatim geolocator a s)) = trace s ++ [ExtCall a]) /\
  (forall e, cache s !! a = None -> geolocator (ncalls s) a = GRaise e ->
   is_Exception e = false ->
   fst (geocode_address_nominatim geolocator a s) = Err e /\
   trace (snd (geocode_address_nominatim geolocator a s)) = trace s ++ [ExtCall a]).
Proof.
  unfold geocode_address_nominatim. split; [|split; [|split]].
  - intros Hexc. destruct (cache s !! a); [eauto|].
    destruct (geolocator (ncalls s) a) as [c| |e] eqn:Eg; simpl; eauto.
    rewrite (Hexc e eq_refl). simpl. eauto.
  - intros e Hc Hg He. rewrite Hc, Hg, He. simpl.
    rewrite <- app_assoc. auto.
  - intros Hc Hg. rewrite Hc, Hg. auto.
  - intros e Hc Hg He. rewrite Hc, Hg, He. auto.
Qed.

Lemma resolve_contains_errors_witness :
  (fst (geocode_address_nominatim (fun _ _ => GRaise GeocoderTimedOut)
          "X, Andhra Pradesh" empty_state) = Ok None /\
   trace (snd (geocode_address_nominatim (fun _ _ => GRaise GeocoderTimedOut)
          "X, Andhra Pradesh" empty_state))
     = [ExtCall "X, Andhra Pradesh"; LogError "X, Andhra Pradesh" GeocoderTimedOut]%string) /\
  fst (geocode_address_nominatim (fun _ _ => GRaise CancelledError)
         "X, Andhra Pradesh" empty_state) = Err CancelledError.
Proof.
  split.
  - destruct (resolve_contains_errors (fun _ _ => GRaise GeocoderTimedOut)
                "X, Andhra Pradesh" empty_state) as [_ [H _]].
    apply (H GeocoderTimedOut); reflexivity.
  - destruct (resolve_contains_errors (fun _ _ => GRaise CancelledError)
                "X, Andhra Pradesh" empty_state) as [_ [_ [_ H]]].
    apply (H CancelledError); reflexivity.
Defined.

(** ** The ranking sort *)


Lemma dist_le_refl d : dist_le d d = true.
Proof. destruct d; simpl; [apply Z.leb_refl|reflexivity]. Qed.





Lemma same_key_le a b : same_key a b = true -> key_le a b = true.
Proof.
  unfold same_key. rewrite bool_decide_eq_true. intros [E1 E2].
  unfold key_le. rewrite E1, E2, Nat.eqb_refl, dist_le_refl. apply orb_true_r.
Qed.

Lemma same_key_trans k a b : same_key k a = true -> same_key k b = true -> same_key a b = true.
Proof.
  unfold same_key. rewrite !bool_decide_eq_true. intros [A1 A2] [B1 B2]. split; congruence.
Qed.

Lemma ins_perm x l : ins x l ≡ₚ x :: l.
Proof.
  induction l as [|y t IH]; simpl; [reflexivity|].
  destruct (key_le x y); [reflexivity|].
  rewrite IH. apply perm_swap.
Qed.

Lemma sort_values_perm l : sort_values l ≡ₚ l.
Proof.
  induction l as [|x t IH]; simpl; [reflexivity|].
  rewrite ins_perm, IH. reflexivity.
Qed.





Lemma ins_filter k x l :
  List.filter (same_key k) (ins x l) = List.filter (same_key k) (x :: l).
Proof.
  induction l as [|y t IH]; simpl; [reflexivity|].
  destruct (key_le x y) eqn:Exy; [reflexivity|].
  simpl. rewrite IH. simpl.
  destruct (same_key k y) eqn:Ey, (same_key k x) eqn:Ex; try reflexivity.
  exfalso. assert (same_key x y = true) as Hxy.
  { eapply same_key_trans; eauto. }
  apply same_key_le in Hxy. congruence.
Qed.

(** ** C7 *)

(** C7: [sort_values] is stable: for every key, the records carrying that
    (PriorityIndex, Distance_km) key appear in the sorted frame in the same
    relative order as in the frame being sorted. *)
Theorem sort_values_stable k l :
  List.filter (same_key k) (sort_values l) = List.filter (same_key k) l.
Proof.
  induction l as [|x t IH]; simpl; [reflexivity|].
  rewrite ins_filter. simpl. rewrite IH. reflexivity.
Qed.

(** ** Frames built by the first pass *)

Lemma dropna_filter df : dropna df = List.filter (fun d => negb (is_missing d)) df.
Proof. unfold dropna, is_missing. apply List.filter_ext. intros [? ? []]; reflexivity. Qed.

Lemma to_drows_set_distance rs outs :
  length outs = length rs ->
  set_distance (to_drows rs) outs = Ok (zip_with with_dist (iterrows rs) outs).
Proof.
  intros Hl. unfold set_distance, to_drows.
  rewrite length_map. unfold iterrows. rewrite length_zip_with, length_seq, Hl.
  rewrite Nat.min_id, Nat.eqb_refl. f_equal.
  generalize 0. clear Hl. revert outs.
  induction rs as [|r rs IH]; intros [|o outs] k; simpl; auto.
  f_equal. apply IH.
Qed.

Lemma dfd_labels rs outs k :
  length outs = length rs ->
  map d_idx (zip_with with_dist (zip (seq k (length rs)) rs) outs) = seq k (length rs).
Proof.
  revert outs k. induction rs as [|r rs IH]; intros [|o outs] k Hl; simpl in *; try lia; auto.
  f_equal. apply IH. lia.
Qed.

Lemma dfd_rows rs outs k :
  length outs = length rs ->
  map d_row (zip_with with_dist (zip (seq k (length rs)) rs) outs) = rs.
Proof.
  revert outs k. induction rs as [|r rs IH]; intros [|o outs] k Hl; simpl in *; try lia; auto.
  f_equal. apply IH. lia.
Qed.

Lemma dfd_elem rs outs k d :
  In d (zip_with with_dist (zip (seq k (length rs)) rs) outs) ->
  k <= d_idx d /\ rs !! (d_idx d - k) = Some (d_row d) /\ outs !! (d_idx d - k) = Some (d_dist d).
Proof.
  revert outs k. induction rs as [|r rs IH]; intros [|o outs] k Hin; simpl in *; try contradiction.
  destruct Hin as [<-|Hin].
  - simpl. rewrite Nat.sub_diag. auto.
  - destruct (IH outs (S k) Hin) as (H1 & H2 & H3).
    replace (d_idx d - k) with (S (d_idx d - S k)) by lia. simpl. auto with lia.
Qed.

Lemma find_label (df : list DRow) d :
  NoDup (map d_idx df) -> In d df ->
  List.find (fun d' => Nat.eqb (d_idx d') (d_idx d)) df = Some d.
Proof.
  induction df as [|y t IH]; simpl; intros Hnd Hin; [contradiction|].
  apply NoDup_cons in Hnd as [Hy Hnd].
  destruct Hin as [->|Hin]; [rewrite Nat.eqb_refl; reflexivity|].
  destruct (Nat.eqb (d_idx y) (d_idx d)) eqn:E.
  - apply Nat.eqb_eq in E. exfalso. apply Hy. rewrite E.
    apply list_elem_of_In. apply in_map. exact Hin.
  - apply IH; auto.
Qed.

Lemma loc_sublist (df l : list DRow) :
  NoDup (map d_idx df) -> (forall d, In d l -> In d df) -> loc df (map d_idx l) = Ok l.
Proof.
  intros Hnd. induction l as [|d l IH]; intros Hsub; simpl; [reflexivity|].
  unfold loc in *. simpl. rewrite find_label; auto; [|apply Hsub; left; auto].
  simpl. rewrite IH; [reflexivity|]. intros x Hx; apply Hsub; right; exact Hx.
Qed.

Lemma filter_app_complement {A} (f : A -> bool) (l : list A) :
  List.filter (fun x => negb (f x)) l ++ List.filter f l ≡ₚ l.
Proof.
  induction l as [|x t IH]; simpl; [reflexivity|].
  destruct (f x); simpl.
  - rewrite <- Permutation_middle. constructor. exact IH.
  - constructor. exact IH.
Qed.

(** ** Pandas stages *)

Lemma add_priority_ok prio l pl :
  add_priority prio l = Ok pl ->
  map (fun p => (p_idx p, p_row p, p_dist p)) pl = map (fun d => (d_idx d, d_row d, d_dist d)) l /\
  Forall (fun p => py_index prio (Category (p_row p)) = Some (p_prio p)) pl.
Proof.
  unfold add_priority. revert pl.
  induction l as [|d l IH]; intros pl H; simpl in H.
  - injection H as <-. auto.
  - unfold list_index in H. destruct (py_index prio (Category (d_row d))) eqn:E;
      simpl in H; [|discriminate].
    destruct (mapR _ l) eqn:E2; simpl in H; [|discriminate]. injection H as <-.
    destruct (IH _ eq_refl) as [H1 H2]. simpl. rewrite H1. split; [reflexivity|constructor; auto].
Qed.

Lemma list_index_none l c : py_index l c = None -> list_index l c = Err ValueError.
Proof. unfold list_index. intros ->. reflexivity. Qed.

Lemma list_index_some l c n : py_index l c = Some n -> list_index l c = Ok n.
Proof. unfold list_index. intros ->. reflexivity. Qed.

Lemma add_priority_unknown prio l :
  (exists d, In d l /\ py_index prio (Category (d_row d)) = None) ->
  add_priority prio l = Err ValueError.
Proof.
  unfold add_priority. induction l as [|d l IH]; intros (d' & Hin & Hn); simpl in *; [contradiction|].
  destruct (py_index prio (Category (d_row d))) eqn:E;
    [rewrite (list_index_some _ _ _ E)|rewrite (list_index_none _ _ E); reflexivity]; simpl.
  destruct Hin as [<-|Hin]; [congruence|].
  rewrite IH; eauto.
Qed.

Lemma add_priority_err prio l e : add_priority prio l = Err e -> e = ValueError.
Proof.
  unfold add_priority. revert e. induction l as [|d l IH]; intros e H; simpl in H; [discriminate|].
  unfold list_index in H. destruct (py_index prio (Category (d_row d))); simpl in H.
  - destruct (mapR _ l) eqn:E; simpl in H; [discriminate|]. injection H as <-. eauto.
  - injection H as <-. reflexivity.
Qed.

Lemma add_priority_known prio l :
  (forall d, In d l -> py_index prio (Category (d_row d)) <> None) ->
  exists pl, add_priority prio l = Ok pl.
Proof.
  unfold add_priority. induction l as [|d l IH]; intros Hk; simpl; [eauto|].
  destruct (py_index prio (Category (d_row d))) eqn:E;
    [rewrite (list_index_some _ _ _ E)|rewrite (list_index_none _ _ E)]; simpl.
  - assert (Hl : forall d', In d' l -> py_index prio (Category (d_row d')) <> None).
    { intros d' Hd'. apply Hk. right. exact Hd'. }
    destruct (IH Hl) as [pl Hpl]. rewrite Hpl. simpl. eauto.
  - exfalso. apply (Hk d); [left; reflexivity|exact E].
Qed.

Lemma set_distance_ok l ds l' :
  set_distance l ds = Ok l' ->
  length ds = length l /\
  map (fun d => (d_idx d, d_row d)) l' = map (fun d => (d_idx d, d_row d)) l.
Proof.
  unfold set_distance. destruct (Nat.eqb (length l) (length ds)) eqn:E; [|discriminate].
  apply Nat.eqb_eq in E. intros H. injection H as <-. split; [auto|].
  revert ds E. induction l as [|d l IH]; intros [|x ds] E; simpl in *; try lia; auto.
  rewrite (IH ds); auto.
Qed.

Lemma add_priority_cols prio l pl :
  add_priority prio l = Ok pl ->
  map p_idx pl = map d_idx l /\ map p_row pl = map d_row l /\
  map (fun p => (p_idx p, p_row p)) pl = map (fun d => (d_idx d, d_row d)) l /\
  map (fun p => (p_idx p, p_row p, p_dist p)) pl = map (fun d => (d_idx d, d_row d, d_dist d)) l.
Proof.
  intros H. apply add_priority_ok in H as [H _].
  pose proof (f_equal (map (fun t => fst (fst t))) H) as H1.
  pose proof (f_equal (map (fun t => snd (fst t))) H) as H2.
  pose proof (f_equal (map fst) H) as H3.
  rewrite !map_map in H1, H2, H3. simpl in H1, H2, H3. auto.
Qed.

Lemma set_distance_len l ds :
  length ds = length l -> exists l', set_distance l ds = Ok l'.
Proof. unfold set_distance. intros ->. rewrite Nat.eqb_refl. eauto. Qed.

Lemma iterrows_length rs : length (iterrows rs) = length rs.
Proof. unfold iterrows. rewrite length_zip_with, length_seq. lia. Qed.


Section ProcessFacts.

Variable genv : gmap string string.
Variable geolocator : nat -> string -> geo_result.
Variable geodesic_km : coords -> coords -> res Z.

Lemma pass1_loop_inv user xs ds0 ms0 s ds ms s1 :
  for_each xs (ds0, ms0) (pass1_body genv geolocator geodesic_km user) s = (Ok (ds, ms), s1) ->
  exists outs, length outs = length xs /\ ds = ds0 ++ outs /\
    ms = ms0 ++ map d_idx (List.filter is_missing (zip_with with_dist xs outs)).
Proof.
  revert ds0 ms0 s. induction xs as [|[i r] xs IH]; intros ds0 ms0 s H; simpl in H.
  - unfold ret in H. injection H as -> -> _. exists []. rewrite !app_nil_r. auto.
  - apply bind_ok_inv in H as ([ds1 ms1] & s2 & Hb & Hr).
    unfold pass1_body in Hb.
    apply bind_ok_inv in Hb as (district & s3 & _ & Hb).
    apply bind_ok_inv in Hb as (c & s4 & _ & Hb).
    apply bind_ok_inv in Hb as (u & s5 & _ & Hb).
    destruct (IH _ _ _ Hr) as (outs & Hl & -> & ->).
    destruct c as [cs|].
    + apply bind_ok_inv in Hb as (dist & s6 & _ & Hb).
      unfold ret in Hb; injection Hb as E1 E2 _; subst ds1 ms1.
      exists (Some dist :: outs). simpl. rewrite <- !app_assoc. auto.
    + unfold ret in Hb; injection Hb as E1 E2 _; subst ds1 ms1.
      exists (None :: outs). simpl. rewrite <- !app_assoc. auto.
Qed.

Lemma pass1_inv user rs s ds ms s1 :
  pass1 genv geolocator geodesic_km user rs s = (Ok (ds, ms), s1) ->
  length ds = length rs /\
  ms = map d_idx (List.filter is_missing (dfd_of rs ds)).
Proof.
  unfold pass1. intros H. apply pass1_loop_inv in H as (outs & Hl & -> & ->).
  rewrite iterrows_length in Hl. simpl. auto.
Qed.

Lemma dfd_of_labels rs ds :
  length ds = length rs -> NoDup (map d_idx (dfd_of rs ds)).
Proof.
  intros Hl. unfold dfd_of, iterrows. rewrite dfd_labels by exact Hl. apply NoDup_seq.
Qed.

(** Everything a successful run of [process] went through. *)
Lemma process_some_inv df user prio s out s' :
  process genv geolocator geodesic_km df (Some user) prio s = (Ok (Some out), s') ->
  exists ds s1 vp dfm mp,
    pass1 genv geolocator geodesic_km user (rows df) (loaded s)
      = (Ok (ds, map d_idx (List.filter is_missing (dfd_of (rows df) ds))), s1) /\
    length ds = length (rows df) /\
    add_priority prio (dropna (dfd_of (rows df) ds)) = Ok vp /\
    map (fun d => (d_idx d, d_row d)) dfm
      = map (fun d => (d_idx d, d_row d)) (List.filter is_missing (dfd_of (rows df) ds)) /\
    add_priority prio dfm = Ok mp /\
    out = map project (sort_values vp ++ sort_values mp).
Proof.
  unfold process. destruct (has_required_columns df); simpl; [|unfold ret; discriminate].
  intros H.
  apply bind_ok_inv in H as (c0 & s2 & Hl & H).
  apply bind_ok_inv in H as (u & s3 & Ha & H).
  assert (Hs3 : s3 = loaded s).
  { unfold load_cache in Hl. unfold assign_cache in Ha. unfold loaded.
    destruct (disk s); injection Hl as <- <-; injection Ha as _ <-; reflexivity. }
  subst s3.
  apply bind_ok_inv in H as ([ds ms] & s4 & Hp & H).
  pose proof (pass1_inv _ _ _ _ _ _ Hp) as [Hlen ->].
  cbv beta iota zeta in H.
  apply bind_ok_inv in H as (u2 & s5 & _ & H).
  apply bind_ok_inv in H as (dfd & s6 & Hd & H).
  unfold lift in Hd. injection Hd as Hd <-.
  rewrite to_drows_set_distance in Hd by exact Hlen. injection Hd as <-.
  apply bind_ok_inv in H as (dfm0 & s7 & Hm & H).
  unfold lift in Hm. injection Hm as Hm <-.
  rewrite loc_sublist in Hm.
  2: { apply dfd_of_labels; exact Hlen. }
  2: { intros d Hd. apply filter_In in Hd. apply Hd. }
  injection Hm as <-.
  apply bind_ok_inv in H as (vp & s8 & Hv & H).
  unfold lift in Hv. injection Hv as Hv <-.
  cbv beta zeta in H.
  apply bind_ok_inv in H as (mds & s9 & _ & H).
  apply bind_ok_inv in H as (dfm & s10 & Hdm & H).
  unfold lift in Hdm. injection Hdm as Hdm <-.
  apply set_distance_ok in Hdm as (_ & Hir).
  apply bind_ok_inv in H as (mp & s11 & Hmp & H).
  unfold lift in Hmp. injection Hmp as Hmp <-.
  unfold ret in H. injection H as <- _.
  exists ds, s4, vp, dfm, mp. repeat split; auto.
Qed.

End ProcessFacts.

Lemma NoDup_map_inj {A B} (f : A -> B) (l : list A) x y :
  NoDup (map f l) -> In x l -> In y l -> f x = f y -> x = y.
Proof.
  induction l as [|z t IH]; simpl; intros Hnd Hx Hy E; [contradiction|].
  apply NoDup_cons in Hnd as [Hz Hnd].
  destruct Hx as [<-|Hx], Hy as [<-|Hy]; auto.
  - exfalso. apply Hz. rewrite E. apply list_elem_of_In, in_map. exact Hy.
  - exfalso. apply Hz. rewrite <- E. apply list_elem_of_In, in_map. exact Hx.
Qed.

Lemma map_pair_split (l1 l2 : list DRow) :
  map (fun d => (d_idx d, d_row d)) l1 = map (fun d => (d_idx d, d_row d)) l2 ->
  map d_idx l1 = map d_idx l2 /\ map d_row l1 = map d_row l2.
Proof.
  revert l2. induction l1 as [|x l1 IH]; intros [|y l2] H; simpl in *; try discriminate; auto.
  injection H as E1 E2 H. destruct (IH _ H) as [-> ->]. rewrite E1, E2. auto.
Qed.

Lemma in_sort_values p l : In p (sort_values l) -> In p l.
Proof. intros H. eapply Permutation_in; [apply sort_values_perm|exact H]. Qed.

Lemma dfd_of_elem rs ds d :
  In d (dfd_of rs ds) -> rs !! d_idx d = Some (d_row d) /\ ds !! d_idx d = Some (d_dist d).
Proof.
  unfold dfd_of, iterrows. intros H. apply dfd_elem in H as (_ & H1 & H2).
  rewrite Nat.sub_0_r in H1, H2. auto.
Qed.

(** ** C5 *)

(** C5: the output of a successful run is the ranked full-address frame
    followed by the ranked fallback frame. Every row of the first block
    got coordinates for its full address in the first pass (its label is
    not in [missing_rows] and its distance is that pass's distance); every
    row of the second block is one of the [missing_rows]. No condition on
    ranks or distances is involved. *)
Theorem process_full_tier_first genv geolocator geodesic_km df user prio s out s' :
  process genv geolocator geodesic_km df (Some user) prio s = (Ok (Some out), s') ->
  exists distances missing_rows s1 vs ms,
    pass1 genv geolocator geodesic_km user (rows df) (loaded s)
      = (Ok (distances, missing_rows), s1) /\
    out = map project (vs ++ ms) /\
    (forall p, In p vs ->
       (p_idx p ∉ missing_rows) /\ rows df !! p_idx p = Some (p_row p) /\
       exists km, distances !! p_idx p = Some (Some km) /\ p_dist p = Some km) /\
    (forall p, In p ms ->
       (p_idx p ∈ missing_rows) /\ rows df !! p_idx p = Some (p_row p) /\
       distances !! p_idx p = Some None).
Proof.
  intros H.
  apply process_some_inv in H as (ds & s1 & vp & dfm & mp & Hp & Hlen & Hv & Hir & Hm & ->).
  exists ds, (map d_idx (List.filter is_missing (dfd_of (rows df) ds))), s1,
    (sort_values vp), (sort_values mp).
  split; [exact Hp|]. split; [reflexivity|]. split.
  - intros p Hin. apply in_sort_values in Hin.
    apply add_priority_cols in Hv as (_ & _ & _ & Hv).
    assert (Hd : In (p_idx p, p_row p, p_dist p)
                   (map (fun d => (d_idx d, d_row d, d_dist d)) (dropna (dfd_of (rows df) ds)))).
    { rewrite <- Hv. apply (in_map (fun p => (p_idx p, p_row p, p_dist p))). exact Hin. }
    apply in_map_iff in Hd as (d & Ed & Hd). injection Ed as E1 E2 E3.
    rewrite dropna_filter in Hd. apply filter_In in Hd as [Hd Hnm].
    destruct (dfd_of_elem _ _ _ Hd) as [Hr Hds].
    rewrite <- E1, <- E2. split; [|split; [exact Hr|]].
    + intros Hmiss. apply list_elem_of_In, in_map_iff in Hmiss as (d' & Ed' & Hd').
      apply filter_In in Hd' as [Hd' Hmd'].
      assert (d' = d) as ->.
      { apply (NoDup_map_inj d_idx (dfd_of (rows df) ds)); auto.
        apply dfd_of_labels; exact Hlen. }
      rewrite Hmd' in Hnm. discriminate.
    + unfold is_missing in Hnm. destruct (d_dist d) as [km|] eqn:Edd; [|discriminate].
      exists km. rewrite Hds, <- E3. auto.
  - intros p Hin. apply in_sort_values in Hin.
    apply add_priority_cols in Hm as (_ & _ & Hm & _).
    assert (Hd : In (p_idx p, p_row p)
                   (map (fun d => (d_idx d, d_row d)) (List.filter is_missing (dfd_of (rows df) ds)))).
    { rewrite <- Hir, <- Hm. apply (in_map (fun p => (p_idx p, p_row p))). exact Hin. }
    apply in_map_iff in Hd as (d & Ed & Hd). injection Ed as E1 E2.
    pose proof Hd as Hd0. apply filter_In in Hd as [Hd Hmd].
    destruct (dfd_of_elem _ _ _ Hd) as [Hr Hds].
    rewrite <- E1, <- E2. split; [|split; [exact Hr|]].
    + apply list_elem_of_In, in_map. exact Hd0.
    + rewrite Hds. unfold is_missing in Hmd. destruct (d_dist d); [discriminate|reflexivity].
Qed.






(** ** C6 *)


(** ** C10 *)

(** C10: in a successful run every input row yields exactly one output
    row: the output rows (School, Mandal, Category) are a permutation of
    the input rows, duplicates included, and the index labels of the two
    blocks together are a permutation of the input labels 0 .. n-1. *)
Theorem process_keeps_every_row genv geolocator geodesic_km df user prio s out s' :
  process genv geolocator geodesic_km df (Some user) prio s = (Ok (Some out), s') ->
  map fst out ≡ₚ rows df /\
  exists vs ms, out = map project (vs ++ ms) /\
    map p_idx (vs ++ ms) ≡ₚ seq 0 (length (rows df)).
Proof.
  intros H.
  apply process_some_inv in H as (ds & s1 & vp & dfm & mp & _ & Hlen & Hv & Hir & Hm & ->).
  apply add_priority_cols in Hv as (Hvi & Hvr & _ & _).
  apply add_priority_cols in Hm as (Hmi & Hmr & _ & _).
  apply map_pair_split in Hir as [Hi Hr].
  assert (Hsplit : forall {B} (f : DRow -> B),
    map f (dropna (dfd_of (rows df) ds)) ++ map f (List.filter is_missing (dfd_of (rows df) ds))
      ≡ₚ map f (dfd_of (rows df) ds)).
  { intros B f. rewrite dropna_filter, <- map_app. apply Permutation_map, filter_app_complement. }
  split; [|exists (sort_values vp), (sort_values mp); split; [reflexivity|]].
  - rewrite map_map. simpl.
    change (map (fun x => p_row x) (sort_values vp ++ sort_values mp))
      with (map p_row (sort_values vp ++ sort_values mp)).
    rewrite !sort_values_perm, map_app, Hvr, Hmr, Hr, Hsplit.
    unfold dfd_of, iterrows. rewrite dfd_rows by exact Hlen. reflexivity.
  - rewrite !sort_values_perm, map_app, Hvi, Hmi, Hi, Hsplit.
    unfold dfd_of, iterrows. rewrite dfd_labels by exact Hlen. reflexivity.
Qed.

(** ** Pacing of the geocoder calls *)


Lemma geocode_events geolocator a s r s1 :
  geocode_address_nominatim geolocator a s = (Ok r, s1) ->
  exists e, resolve_events e /\ trace s1 = trace s ++ e.
Proof.
  unfold geocode_address_nominatim. destruct (cache s !! a).
  - intros H. injection H as _ <-. exists []. rewrite app_nil_r. split; [constructor|auto].
  - destruct (geolocator (ncalls s) a) as [c| |e].
    + intros H. injection H as _ <-. exists [ExtCall a]. split; [constructor|reflexivity].
    + intros H. injection H as _ <-. exists [ExtCall a]. split; [constructor|reflexivity].
    + destruct (is_Exception e); intros H; [|discriminate]. injection H as _ <-.
      exists [ExtCall a; LogError a e]. split; [constructor|]. simpl. rewrite <- app_assoc. reflexivity.
Qed.

Lemma lookup_global_state genv name s r s1 :
  lookup_global genv name s = (r, s1) -> s1 = s.
Proof. unfold lookup_global. destruct (genv !! name); intros H; injection H; auto. Qed.

Lemma for_each_paced {A S} (body : A -> S -> M S) xs acc s acc' s1 :
  (forall x a s a' s1, body x a s = (Ok a', s1) ->
     exists e, resolve_events e /\ trace s1 = trace s ++ e ++ [Sleep 1]) ->
  for_each xs acc body s = (Ok acc', s1) ->
  exists t, paced (length xs) t /\ trace s1 = trace s ++ t.
Proof.
  intros Hb. revert acc s. induction xs as [|x xs IH]; intros acc s H; simpl in H.
  - unfold ret in H. injection H as _ <-. exists []. rewrite app_nil_r. split; [constructor|auto].
  - apply bind_ok_inv in H as (a1 & s2 & H1 & H2).
    destruct (Hb _ _ _ _ _ H1) as (e & He & Ht1).
    destruct (IH _ _ H2) as (t & Hp & Ht2).
    exists (e ++ Sleep 1 :: t). split; [constructor; auto|].
    rewrite Ht2, Ht1, <- !app_assoc. reflexivity.
Qed.

Lemma pass1_body_events genv geolocator geodesic_km user x acc s acc' s1 :
  pass1_body genv geolocator geodesic_km user x acc s = (Ok acc', s1) ->
  exists e, resolve_events e /\ trace s1 = trace s ++ e ++ [Sleep 1].
Proof.
  destruct x as [i r], acc as [ds ms]. unfold pass1_body. intros H.
  apply bind_ok_inv in H as (district & s3 & Hl & H). apply lookup_global_state in Hl. subst s3.
  apply bind_ok_inv in H as (c & s4 & Hg & H). apply geocode_events in Hg as (e & He & Ht).
  apply bind_ok_inv in H as (u & s5 & Hs & H). unfold sleep in Hs. injection Hs as _ <-.
  exists e. split; [exact He|].
  destruct c;
    [apply bind_ok_inv in H as (dist & s6 & Hd & H); unfold lift in Hd; injection Hd as _ <-|];
    unfold ret in H; injection H as _ <-; simpl; rewrite Ht, <- app_assoc; reflexivity.
Qed.

Lemma pass2_body_events genv geolocator geodesic_km user d acc s acc' s1 :
  pass2_body genv geolocator geodesic_km user d acc s = (Ok acc', s1) ->
  exists e, resolve_events e /\ trace s1 = trace s ++ e ++ [Sleep 1].
Proof.
  unfold pass2_body. intros H.
  apply bind_ok_inv in H as (district & s3 & Hl & H). apply lookup_global_state in Hl. subst s3.
  apply bind_ok_inv in H as (c & s4 & Hg & H). apply geocode_events in Hg as (e & He & Ht).
  apply bind_ok_inv in H as (u & s5 & Hs & H). unfold sleep in Hs. injection Hs as _ <-.
  exists e. split; [exact He|].
  destruct c;
    [apply bind_ok_inv in H as (dist & s6 & Hd & H); unfold lift in Hd; injection Hd as _ <-|];
    unfold ret in H; injection H as _ <-; simpl; rewrite Ht, <- app_assoc; reflexivity.
Qed.

Lemma mapR_length {A B} (f : A -> res B) l l' : mapR f l = Ok l' -> length l' = length l.
Proof.
  revert l'. induction l as [|x l IH]; intros l' H; simpl in H.
  - injection H as <-. reflexivity.
  - destruct (f x); simpl in H; [|discriminate].
    destruct (mapR f l) eqn:E; simpl in H; [|discriminate].
    injection H as <-. simpl. rewrite (IH _ eq_refl). reflexivity.
Qed.

(** ** C3 *)

(** C3 (counterexample): the single row's full address is already in the
    cache file, so the run makes no external call at all, yet a 1-second
    sleep follows the cache hit. *)
Lemma process_sleeps_on_cache_hit :
  ncalls (snd (process bapatla_globals demo_geocoder demo_km
                 (mkInFrame demo_columns [mkRow "T" "M" 1]%string) (Some (0, 0)%Z)
                 default_priority
                 (mkSt ∅ (Some {["T, M, Bapatla, Andhra Pradesh"%string := (5, 5)%Z]}) 0 [])))
    = 0 /\
  In (Sleep 1)
    (trace (snd (process bapatla_globals demo_geocoder demo_km
                   (mkInFrame demo_columns [mkRow "T" "M" 1]%string) (Some (0, 0)%Z)
                   default_priority
                   (mkSt ∅ (Some {["T, M, Bapatla, Andhra Pradesh"%string := (5, 5)%Z]}) 0 [])))).
Proof. vm_compute. split; [reflexivity|left; reflexivity]. Qed.

(** C3 (amended): in a successful run, each of the [n] resolves of the
    first pass and each of the fallback resolves of the second pass is
    followed by exactly one [sleep(1)], whether it made an external call
    or was served from the cache; the two passes are separated by the one
    cache save. *)
Theorem process_sleeps_after_every_resolve genv geolocator geodesic_km df user prio s out s' :
  process genv geolocator geodesic_km df (Some user) prio s = (Ok (Some out), s') ->
  exists distances missing_rows s1 t1 t2,
    pass1 genv geolocator geodesic_km user (rows df) (loaded s)
      = (Ok (distances, missing_rows), s1) /\
    trace s1 = trace s ++ t1 /\ paced (length (rows df)) t1 /\
    trace s' = trace s1 ++ SaveCache (cache s1) :: t2 /\ paced (length missing_rows) t2.
Proof.
  unfold process. destruct (has_required_columns df); simpl; [|unfold ret; discriminate].
  intros H.
  apply bind_ok_inv in H as (c0 & s2 & Hl & H).
  apply bind_ok_inv in H as (u & s3 & Ha & H).
  assert (Hs3 : s3 = loaded s).
  { unfold load_cache in Hl. unfold assign_cache in Ha. unfold loaded.
    destruct (disk s); injection Hl as <- <-; injection Ha as _ <-; reflexivity. }
  subst s3.
  apply bind_ok_inv in H as ([ds ms] & s4 & Hp & H).
  pose proof Hp as Hp'. unfold pass1 in Hp'.
  apply for_each_paced in Hp' as (t1 & Hpc1 & Ht1); [|apply pass1_body_events].
  rewrite iterrows_length in Hpc1.
  cbv beta iota zeta in H.
  apply bind_ok_inv in H as (u2 & s5 & Hsv & H). unfold save_cache in Hsv. injection Hsv as _ <-.
  apply bind_ok_inv in H as (dfd & s6 & Hd & H). unfold lift in Hd. injection Hd as _ <-.
  apply bind_ok_inv in H as (dfm0 & s7 & Hm & H). unfold lift in Hm. injection Hm as Hm <-.
  apply bind_ok_inv in H as (vp & s8 & Hv & H). unfold lift in Hv. injection Hv as _ <-.
  cbv beta zeta in H.
  apply bind_ok_inv in H as (mds & s9 & H2 & H).
  apply for_each_paced in H2 as (t2 & Hpc2 & Ht2); [|apply pass2_body_events].
  apply bind_ok_inv in H as (dfm & s10 & Hdm & H). unfold lift in Hdm. injection Hdm as _ <-.
  apply bind_ok_inv in H as (mp & s11 & Hmp & H). unfold lift in Hmp. injection Hmp as _ <-.
  unfold ret in H. injection H as _ <-.
  exists ds, ms, s4, t1, t2. unfold loaded, set_cache in Ht1. simpl in Ht1.
  split; [exact Hp|]. split; [exact Ht1|]. split; [exact Hpc1|]. split.
  - rewrite Ht2. simpl. rewrite <- app_assoc. reflexivity.
  - unfold loc in Hm. apply mapR_length in Hm. rewrite <- Hm. exact Hpc2.
Qed.

(** ** Runs that get through both passes *)

Lemma load_cache_ok s :
  load_cache s = (Ok (match disk s with Some c => c | None => ∅ end), s).
Proof. unfold load_cache. destruct (disk s); reflexivity. Qed.

Lemma geocode_total geolocator a s :
  (forall n a e, geolocator n a = GRaise e -> is_Exception e = true) ->
  exists r s1, geocode_address_nominatim geolocator a s = (Ok r, s1).
Proof.
  intros Hexc. unfold geocode_address_nominatim. destruct (cache s !! a); [eauto|].
  destruct (geolocator (ncalls s) a) as [c| |e] eqn:Eg; eauto.
  rewrite (Hexc _ _ _ Eg). eauto.
Qed.

(** A resolve keeps [cache_met], and coordinates it returns are ones the
    run can meet. *)
Lemma geocode_met geolocator D a s r s1 :
  cache_met geolocator D s ->
  geocode_address_nominatim geolocator a s = (r, s1) ->
  cache_met geolocator D s1 /\ (forall c, r = Ok (Some c) -> met geolocator D c).
Proof.
  unfold geocode_address_nominatim. intros Hinv.
  destruct (cache s !! a) as [c0|] eqn:Hc.
  - intros E; injection E as <- <-. split; [exact Hinv|].
    intros c E; injection E as <-. exact (Hinv a c0 Hc).
  - destruct (geolocator (ncalls s) a) as [c0| |e] eqn:Eg.
    + intros E; injection E as <- <-. split.
      * intros k v. simpl. destruct (decide (k = a)) as [->|Hne].
        -- rewrite lookup_insert_eq. intros E; injection E as <-. left. eauto.
        -- rewrite lookup_insert_ne by congruence. apply Hinv.
      * intros c E; injection E as <-. left. eauto.
    + intros E; injection E as <- <-. split; [exact Hinv|discriminate].
    + destruct (is_Exception e); intros E; injection E as <- <-;
        (split; [exact Hinv|discriminate]).
Qed.

Section Progress.

Variable genv : gmap string string.
Variable geolocator : nat -> string -> geo_result.
Variable geodesic_km : coords -> coords -> res Z.
Variable district : string.
Hypothesis Hdistrict : genv !! "DISTRICT"%string = Some district.
Hypothesis Hexc : forall n a e, geolocator n a = GRaise e -> is_Exception e = true.
(** The user coordinates and the cache file [D]: geopy computes the
    distance from the user to every coordinate pair the run can meet. *)
Variable user : coords.
Variable D : gmap string coords.
Hypothesis Hgeo : forall c, met geolocator D c -> exists d, geodesic_km user c = Ok d.

Lemma lookup_DISTRICT s : lookup_global genv "DISTRICT" s = (Ok district, s).
Proof. unfold lookup_global. rewrite Hdistrict. reflexivity. Qed.

Lemma pass1_body_total x acc s :
  cache_met geolocator D s ->
  exists acc' s1, pass1_body genv geolocator geodesic_km user x acc s = (Ok acc', s1) /\
    cache_met geolocator D s1.
Proof.
  intros Hinv. destruct x as [i r], acc as [ds ms]. unfold pass1_body. cbv beta iota.
  rewrite (bind_ok _ _ _ _ _ (lookup_DISTRICT s)).
  destruct (geocode_total geolocator (full_address r district) s Hexc) as (c & s1 & Hg).
  destruct (geocode_met _ _ _ _ _ _ Hinv Hg) as [Hinv1 Hc].
  rewrite (bind_ok _ _ _ _ _ Hg). unfold bind, sleep, ret, lift.
  destruct c as [cs|]; [|eauto].
  destruct (Hgeo cs (Hc cs eq_refl)) as [d ->]. eauto.
Qed.

Lemma pass2_body_total d acc s :
  cache_met geolocator D s ->
  exists x s1, pass2_body genv geolocator geodesic_km user d acc s = (Ok (acc ++ [x]), s1) /\
    cache_met geolocator D s1.
Proof.
  intros Hinv. unfold pass2_body.
  rewrite (bind_ok _ _ _ _ _ (lookup_DISTRICT s)).
  destruct (geocode_total geolocator (mandal_address (d_row d) district) s Hexc) as (c & s1 & Hg).
  destruct (geocode_met _ _ _ _ _ _ Hinv Hg) as [Hinv1 Hc].
  rewrite (bind_ok _ _ _ _ _ Hg). unfold bind, sleep, ret, lift.
  destruct c as [cs|]; [|eauto].
  destruct (Hgeo cs (Hc cs eq_refl)) as [k ->]. eauto.
Qed.

Lemma pass1_loop_total xs acc s :
  cache_met geolocator D s ->
  exists acc' s1, for_each xs acc (pass1_body genv geolocator geodesic_km user) s = (Ok acc', s1) /\
    cache_met geolocator D s1.
Proof.
  revert acc s. induction xs as [|x xs IH]; intros acc s Hinv; simpl; [eauto|].
  destruct (pass1_body_total x acc s Hinv) as (a & s1 & Hb & Hinv1).
  rewrite (bind_ok _ _ _ _ _ Hb). apply IH, Hinv1.
Qed.

Lemma pass2_loop_total xs acc s :
  cache_met geolocator D s ->
  exists mds s1, for_each xs acc (pass2_body genv geolocator geodesic_km user) s = (Ok mds, s1) /\
    length mds = length acc + length xs.
Proof.
  revert acc s. induction xs as [|d xs IH]; intros acc s Hinv; simpl.
  - exists acc, s. split; [reflexivity|lia].
  - destruct (pass2_body_total d acc s Hinv) as (x & s1 & Hb & Hinv1).
    rewrite (bind_ok _ _ _ _ _ Hb).
    destruct (IH (acc ++ [x]) s1 Hinv1) as (mds & s2 & H & Hl). exists mds, s2. split; [exact H|].
    rewrite Hl, length_app. simpl. lia.
Qed.

End Progress.

Lemma dfd_of_rows rs ds : length ds = length rs -> map d_row (dfd_of rs ds) = rs.
Proof. intros Hl. unfold dfd_of, iterrows. apply dfd_rows. exact Hl. Qed.

Lemma process_full_tier_first_witness :
  process bapatla_globals demo_geocoder demo_km demo_df (Some (0, 0)%Z) default_priority empty_state
    = (Ok (Some demo_out),
       snd (process bapatla_globals demo_geocoder demo_km demo_df (Some (0, 0)%Z)
              default_priority empty_state)) /\
  exists distances missing_rows s1 vs ms,
    pass1 bapatla_globals demo_geocoder demo_km (0, 0)%Z (rows demo_df) (loaded empty_state)
      = (Ok (distances, missing_rows), s1) /\
    demo_out = map project (vs ++ ms) /\
    (forall p, In p vs ->
       (p_idx p ∉ missing_rows) /\ rows demo_df !! p_idx p = Some (p_row p) /\
       exists km, distances !! p_idx p = Some (Some km) /\ p_dist p = Some km) /\
    (forall p, In p ms ->
       (p_idx p ∈ missing_rows) /\ rows demo_df !! p_idx p = Some (p_row p) /\
       distances !! p_idx p = Some None).
Proof.
  assert (H : process bapatla_globals demo_geocoder demo_km demo_df (Some (0, 0)%Z)
                default_priority empty_state
              = (Ok (Some demo_out),
                 snd (process bapatla_globals demo_geocoder demo_km demo_df (Some (0, 0)%Z)
                        default_priority empty_state))) by (vm_compute; reflexivity).
  split; [exact H|].
  exact (process_full_tier_first bapatla_globals demo_geocoder demo_km demo_df (0, 0)%Z
           default_priority empty_state demo_out _ H).
Defined.


Lemma process_keeps_every_row_witness :
  process bapatla_globals demo_geocoder demo_km demo_df (Some (0, 0)%Z) default_priority empty_state
    = (Ok (Some demo_out),
       snd (process bapatla_globals demo_geocoder demo_km demo_df (Some (0, 0)%Z)
              default_priority empty_state)) /\
  map fst demo_out ≡ₚ rows demo_df /\
  exists vs ms, demo_out = map project (vs ++ ms) /\
    map p_idx (vs ++ ms) ≡ₚ seq 0 (length (rows demo_df)).
Proof.
  assert (H : process bapatla_globals demo_geocoder demo_km demo_df (Some (0, 0)%Z)
                default_priority empty_state
              = (Ok (Some demo_out),
                 snd (process bapatla_globals demo_geocoder demo_km demo_df (Some (0, 0)%Z)
                        default_priority empty_state))) by (vm_compute; reflexivity).
  split; [exact H|].
  exact (process_keeps_every_row bapatla_globals demo_geocoder demo_km demo_df (0, 0)%Z
           default_priority empty_state demo_out _ H).
Defined.

Lemma process_sleeps_after_every_resolve_witness :
  process bapatla_globals demo_geocoder demo_km demo_df (Some (0, 0)%Z) default_priority empty_state
    = (Ok (Some demo_out),
       snd (process bapatla_globals demo_geocoder demo_km demo_df (Some (0, 0)%Z)
              default_priority empty_state)) /\
  exists distances missing_rows s1 t1 t2,
    pass1 bapatla_globals demo_geocoder demo_km (0, 0)%Z (rows demo_df) (loaded empty_state)
      = (Ok (distances, missing_rows), s1) /\
    trace s1 = trace empty_state ++ t1 /\ paced (length (rows demo_df)) t1 /\
    trace (snd (process bapatla_globals demo_geocoder demo_km demo_df (Some (0, 0)%Z)
                  default_priority empty_state))
      = trace s1 ++ SaveCache (cache s1) :: t2 /\ paced (length missing_rows) t2.
Proof.
  assert (H : process bapatla_globals demo_geocoder demo_km demo_df (Some (0, 0)%Z)
                default_priority empty_state
              = (Ok (Some demo_out),
                 snd (process bapatla_globals demo_geocoder demo_km demo_df (Some (0, 0)%Z)
                        default_priority empty_state))) by (vm_compute; reflexivity).
  split; [exact H|].
  exact (process_sleeps_after_every_resolve bapatla_globals demo_geocoder demo_km demo_df (0, 0)%Z
           default_priority empty_state demo_out _ H).
Defined.

(** ** C4 *)


(** C4 (code bug): in the demo run school S falls back to its Mandal,
    whose coordinates are added to the cache by the second pass. The only
    save happened before that pass, so the run ends with the Mandal entry
    in memory and not in geo_cache.json. *)
Theorem process_fallback_entry_not_saved :
  cache (snd (process bapatla_globals demo_geocoder demo_km demo_df (Some (0, 0)%Z)
                default_priority empty_state)) !! "M, Bapatla, Andhra Pradesh"%string
    = Some (1, 2)%Z /\
  (match disk (snd (process bapatla_globals demo_geocoder demo_km demo_df (Some (0, 0)%Z)
                      default_priority empty_state)) with
   | Some saved => saved !! "M, Bapatla, Andhra Pradesh"%string
   | None => None
   end) = None /\
  length (List.filter is_save
            (trace (snd (process bapatla_globals demo_geocoder demo_km demo_df (Some (0, 0)%Z)
                           default_priority empty_state)))) = 1.
Proof. vm_compute. split; [reflexivity|split; reflexivity]. Qed.

(** ** Whole-run facts: the invariant machinery *)

Lemma process_Some_eq genv geolocator geodesic_km df user prio s :
  process genv geolocator geodesic_km df (Some user) prio s =
  if has_required_columns df
  then process_rest genv geolocator geodesic_km df user prio (loaded s)
  else (Ok None, s).
Proof.
  unfold process, process_rest. destruct (has_required_columns df); simpl; [|reflexivity].
  unfold bind at 1 2, load_cache, assign_cache, loaded. destruct (disk s); reflexivity.
Qed.

Lemma bind_inv {A B} (m : M A) (k : A -> M B) s r s' :
  bind m k s = (r, s') ->
  (exists e, m s = (Err e, s') /\ r = Err e) \/
  (exists a s1, m s = (Ok a, s1) /\ k a s1 = (r, s')).
Proof.
  unfold bind. destruct (m s) as [[a|e] s1]; intros H; [right; eauto|].
  injection H as <- <-. left. eauto.
Qed.

Lemma preserves_bind P {A B} (m : M A) (k : A -> M B) :
  preserves P m -> (forall a, preserves P (k a)) -> preserves P (bind m k).
Proof.
  intros Hm Hk s r s' Hs H. apply bind_inv in H as [(e & H & _)|(a & s1 & H1 & H2)].
  - eapply Hm; eauto.
  - eapply Hk; [eapply Hm; eauto|exact H2].
Qed.

Lemma preserves_ret P {A} (a : A) : preserves P (ret a).
Proof. intros s r s' Hs H. injection H as _ <-. exact Hs. Qed.

Lemma preserves_lift P {A} (x : res A) : preserves P (lift x).
Proof. intros s r s' Hs H. injection H as _ <-. exact Hs. Qed.

Lemma preserves_sleep P n : emit_stable P -> preserves P (sleep n).
Proof. intros HP s r s' Hs H. injection H as _ <-. apply HP, Hs. Qed.

Lemma preserves_lookup_global P genv name : preserves P (lookup_global genv name).
Proof.
  intros s r s' Hs H. apply lookup_global_state in H. subst. exact Hs.
Qed.

Lemma preserves_for_each P {A S} (xs : list A) (acc : S) body :
  (forall x a, preserves P (body x a)) -> preserves P (for_each xs acc body).
Proof.
  intros Hb. revert acc. induction xs as [|x xs IH]; intros acc; simpl.
  - apply preserves_ret.
  - apply preserves_bind; [apply Hb|intros a; apply IH].
Qed.

Section Preserve.

Variable P : St -> Prop.
Variable genv : gmap string string.
Variable geolocator : nat -> string -> geo_result.
Variable geodesic_km : coords -> coords -> res Z.
Hypothesis HPemit : emit_stable P.
Hypothesis HPgeo : forall a, preserves P (geocode_address_nominatim geolocator a).

Lemma preserves_pass1_body user x acc :
  preserves P (pass1_body genv geolocator geodesic_km user x acc).
Proof.
  destruct x as [i r], acc as [ds ms]. unfold pass1_body.
  apply preserves_bind; [apply preserves_lookup_global|intros district].
  apply preserves_bind; [apply HPgeo|intros c].
  apply preserves_bind; [apply preserves_sleep, HPemit|intros _].
  destruct c; [apply preserves_bind; [apply preserves_lift|intros; apply preserves_ret]|apply preserves_ret].
Qed.

Lemma preserves_pass2_body user d acc :
  preserves P (pass2_body genv geolocator geodesic_km user d acc).
Proof.
  unfold pass2_body.
  apply preserves_bind; [apply preserves_lookup_global|intros district].
  apply preserves_bind; [apply HPgeo|intros c].
  apply preserves_bind; [apply preserves_sleep, HPemit|intros _].
  destruct c; [apply preserves_bind; [apply preserves_lift|intros; apply preserves_ret]|apply preserves_ret].
Qed.

Lemma preserves_pass1 user rs : preserves P (pass1 genv geolocator geodesic_km user rs).
Proof. apply preserves_for_each. intros. apply preserves_pass1_body. Qed.

Lemma preserves_process_rest df user prio :
  preserves P save_cache ->
  preserves P (process_rest genv geolocator geodesic_km df user prio).
Proof.
  intros Hsave. unfold process_rest.
  apply preserves_bind; [apply preserves_pass1|intros [ds ms]].
  apply preserves_bind; [exact Hsave|intros _].
  apply preserves_bind; [apply preserves_lift|intros dfd].
  apply preserves_bind; [apply preserves_lift|intros dfm].
  apply preserves_bind; [apply preserves_lift|intros vp].
  apply preserves_bind; [apply preserves_for_each; intros; apply preserves_pass2_body|intros mds].
  apply preserves_bind; [apply preserves_lift|intros dfm'].
  apply preserves_bind; [apply preserves_lift|intros mp].
  apply preserves_ret.
Qed.

End Preserve.

(** How one resolve changes the state. *)
Lemma geocode_update geolocator a s r s' :
  geocode_address_nominatim geolocator a s = (r, s') ->
  disk s' = disk s /\
  ((cache s' = cache s /\ ncalls s' = ncalls s /\
    forall c, r = Ok (Some c) -> cache s !! a = Some c) \/
   (cache s !! a = None /\ ncalls s' = S (ncalls s) /\
    (cache s' = cache s \/
     exists c, r = Ok (Some c) /\ cache s' = <[a:=c]> (cache s)))).
Proof.
  unfold geocode_address_nominatim. destruct (cache s !! a) as [c0|] eqn:Hc.
  - intros H. injection H as <- <-. split; [reflexivity|left].
    split; [reflexivity|split; [reflexivity|]]. intros c E. congruence.
  - destruct (geolocator (ncalls s) a) as [c| |e].
    + intros H. injection H as <- <-. simpl. split; [reflexivity|right]. eauto 7.
    + intros H. injection H as <- <-. simpl. split; [reflexivity|right]. auto.
    + destruct (is_Exception e); intros H; injection H as <- <-; simpl;
        (split; [reflexivity|right]); auto.
Qed.

Lemma preserves_bind_ok P {A B} (m : M A) (k : A -> M B) :
  preserves P m ->
  (forall a, (exists s0 s1, m s0 = (Ok a, s1)) -> preserves P (k a)) ->
  preserves P (bind m k).
Proof.
  intros Hm Hk s r s' Hs H. apply bind_inv in H as [(e & H & _)|(a & s1 & H1 & H2)].
  - eapply Hm; eauto.
  - eapply (Hk a); [eauto|eapply Hm; eauto|exact H2].
Qed.

Lemma preserves_for_each_in P {A S} (xs : list A) (acc : S) body :
  (forall x a, In x xs -> preserves P (body x a)) -> preserves P (for_each xs acc body).
Proof.
  revert acc. induction xs as [|x xs IH]; intros acc Hb; simpl.
  - apply preserves_ret.
  - apply preserves_bind; [apply Hb; left; reflexivity|].
    intros a. apply IH. intros y b Hy. apply Hb. right. exact Hy.
Qed.

Lemma lookup_global_ok genv name s v s1 :
  lookup_global genv name s = (Ok v, s1) -> genv !! name = Some v.
Proof.
  unfold lookup_global, ret, raise. destruct (genv !! name); intros H; inversion H; reflexivity.
Qed.

Lemma in_iterrows rs i r : In (i, r) (iterrows rs) -> In r rs.
Proof.
  unfold iterrows. generalize 0. induction rs as [|x rs IH]; intros n H; simpl in H.
  - contradiction.
  - destruct H as [E|H]; [injection E as _ ->; left; reflexivity|right; eapply IH; exact H].
Qed.

(** The cache after one resolve: unchanged, or the address was absent,
    the geocoder found it and it was inserted. *)
Lemma geocode_cache geolocator a s r s' :
  geocode_address_nominatim geolocator a s = (r, s') ->
  cache s' = cache s \/
  exists c, cache s !! a = None /\ geolocator (ncalls s) a = GFound c /\
    r = Ok (Some c) /\ cache s' = <[a:=c]> (cache s).
Proof.
  unfold geocode_address_nominatim. destruct (cache s !! a) eqn:Hc.
  - intros H. injection H as _ <-. auto.
  - destruct (geolocator (ncalls s) a) as [c| |e] eqn:Hg.
    + intros H. injection H as <- <-. right. exists c. auto.
    + intros H. injection H as _ <-. auto.
    + destruct (is_Exception e); intros H; injection H as _ <-; auto.
Qed.

Lemma geocode_cache_mono geolocator a s r s' :
  geocode_address_nominatim geolocator a s = (r, s') -> cache s ⊆ cache s'.
Proof.
  intros H. apply geocode_cache in H as [->|(c & Hc & _ & _ & ->)].
  - reflexivity.
  - apply insert_subseteq. exact Hc.
Qed.

Lemma preserves_geocode_disk geolocator a D :
  preserves (fun st => disk st = D) (geocode_address_nominatim geolocator a).
Proof. intros s r s' Hs H. apply geocode_update in H as [-> _]. exact Hs. Qed.

Lemma preserves_geocode_cache geolocator a C :
  preserves (fun st => C ⊆ cache st) (geocode_address_nominatim geolocator a).
Proof. intros s r s' Hs H. apply geocode_cache_mono in H. etransitivity; eassumption. Qed.

Lemma preserves_geocode_ncalls geolocator a N :
  preserves (fun st => N <= ncalls st) (geocode_address_nominatim geolocator a).
Proof.
  intros s r s' Hs H. apply geocode_update in H as [_ [(_ & -> & _)|(_ & -> & _)]]; lia.
Qed.

Lemma pass1_disk genv geolocator geodesic_km user rs s r s1 :
  pass1 genv geolocator geodesic_km user rs s = (r, s1) -> disk s1 = disk s.
Proof.
  intros H. refine (preserves_pass1 (fun st => disk st = disk s) genv geolocator geodesic_km
    _ _ user rs s r s1 eq_refl H).
  - intros st ev Hst. exact Hst.
  - intros a. apply preserves_geocode_disk.
Qed.

(** The cache file after [process_rest]: the cache as it stood after the
    first pass when that pass completed, untouched otherwise. *)
Lemma process_rest_disk genv geolocator geodesic_km df user prio s r s' :
  process_rest genv geolocator geodesic_km df user prio s = (r, s') ->
  match pass1 genv geolocator geodesic_km user (rows df) s with
  | (Ok _, s1) => disk s' = Some (cache s1)
  | (Err _, _) => disk s' = disk s
  end.
Proof.
  unfold process_rest. intros H.
  destruct (pass1 genv geolocator geodesic_km user (rows df) s) as [[[ds ms]|e] s1] eqn:Hp.
  - rewrite (bind_ok _ _ _ _ _ Hp) in H. cbv beta iota in H.
    unfold bind at 1, save_cache in H. cbv beta iota in H.
    set (P := fun st : St => disk st = Some (cache s1)).
    match type of H with ?m ?st = _ => assert (Hm : preserves P m) end.
    { assert (HPe : emit_stable P) by (intros st ev Hst; exact Hst).
      assert (HPg : forall a, preserves P (geocode_address_nominatim geolocator a))
        by (intros a; apply preserves_geocode_disk).
      apply preserves_bind; [apply preserves_lift|intros dfd].
      apply preserves_bind; [apply preserves_lift|intros dfm].
      apply preserves_bind; [apply preserves_lift|intros vp].
      apply preserves_bind;
        [apply preserves_for_each; intros; apply preserves_pass2_body; assumption|intros mds].
      apply preserves_bind; [apply preserves_lift|intros dfm'].
      apply preserves_bind; [apply preserves_lift|intros mp].
      apply preserves_ret. }
    exact (Hm _ _ _ (eq_refl : P (mkSt (cache s1) (Some (cache s1)) (ncalls s1) (trace s1 ++ [SaveCache (cache s1)]))) H).
  - rewrite (bind_err _ _ _ _ _ Hp) in H. injection H as _ <-.
    exact (pass1_disk _ _ _ _ _ _ _ _ Hp).
Qed.

(** Every entry the first pass adds to the cache is the full address of
    one of the rows, with coordinates the geocoder returned for it. *)
Lemma pass1_new_entries genv geolocator geodesic_km user rs (D : gmap string coords) s r s1 :
  pass1 genv geolocator geodesic_km user rs s = (r, s1) ->
  (forall k v, cache s !! k = Some v -> D !! k = Some v \/
     exists row district n, In row rs /\ genv !! "DISTRICT"%string = Some district /\
       k = full_address row district /\ geolocator n k = GFound v) ->
  (forall k v, cache s1 !! k = Some v -> D !! k = Some v \/
     exists row district n, In row rs /\ genv !! "DISTRICT"%string = Some district /\
       k = full_address row district /\ geolocator n k = GFound v).
Proof.
  set (P := fun st : St => forall k v, cache st !! k = Some v -> D !! k = Some v \/
     exists row district n, In row rs /\ genv !! "DISTRICT"%string = Some district /\
       k = full_address row district /\ geolocator n k = GFound v).
  intros H Hs. change (P s) in Hs. change (P s1). unfold pass1 in H.
  refine (preserves_for_each_in P _ _ _ _ s r s1 Hs H).
  intros [i row] [ds ms] Hin. apply in_iterrows in Hin. unfold pass1_body.
  apply preserves_bind_ok; [apply preserves_lookup_global|intros district (s0 & s0' & Hl)].
  apply lookup_global_ok in Hl.
  apply preserves_bind; [|intros c].
  - intros st r' st' Hst Hg. unfold P in Hst |- *.
    apply geocode_cache in Hg as [->|(c & Hc & Hgf & _ & ->)].
    + exact Hst.
    + intros k v Hk.
      destruct (decide (k = full_address row district)) as [->|Hne].
      * rewrite lookup_insert_eq in Hk. injection Hk as <-. right.
        exists row, district, (ncalls st). auto.
      * rewrite lookup_insert_ne in Hk by congruence. apply Hst. exact Hk.
  - apply preserves_bind; [apply preserves_sleep; intros st ev Hst; exact Hst|intros _].
    destruct c; [apply preserves_bind; [apply preserves_lift|intros; apply preserves_ret]|apply preserves_ret].
Qed.

Lemma pass1_cache_mono genv geolocator geodesic_km user rs s r s1 :
  pass1 genv geolocator geodesic_km user rs s = (r, s1) -> cache s ⊆ cache s1.
Proof.
  intros H. refine (preserves_pass1 (fun st => cache s ⊆ cache st) genv geolocator geodesic_km
    _ _ user rs s r s1 _ H).
  - intros st ev Hst. exact Hst.
  - intros a. apply preserves_geocode_cache.
  - reflexivity.
Qed.

(** A first pass over rows whose full addresses are all cached: no call,
    the cache unchanged, and, if it completes, no row marked missing. *)
Lemma pass1_loop_hits genv geolocator geodesic_km district user xs ds0 ms0 s r s1 :
  genv !! "DISTRICT"%string = Some district ->
  (forall i row, In (i, row) xs -> is_Some (cache s !! full_address row district)) ->
  for_each xs (ds0, ms0) (pass1_body genv geolocator geodesic_km user) s = (r, s1) ->
  cache s1 = cache s /\ ncalls s1 = ncalls s /\ (forall ds ms, r = Ok (ds, ms) -> ms = ms0).
Proof.
  intros Hd. revert ds0 s. induction xs as [|[i row] xs IH]; intros ds0 s Hc H; simpl in H.
  - unfold ret in H. injection H as <- <-. split; [reflexivity|]. split; [reflexivity|].
    intros ds ms E. injection E as _ <-. reflexivity.
  - destruct (Hc i row (or_introl eq_refl)) as [c Hcc].
    assert (Hb : pass1_body genv geolocator geodesic_km user (i, row) (ds0, ms0) s
                 = match geodesic_km user c with
                   | Ok d => (Ok (ds0 ++ [Some d], ms0), emit s (Sleep 1))
                   | Err e => (Err e, emit s (Sleep 1))
                   end).
    { unfold pass1_body, lookup_global. rewrite Hd. unfold bind at 1, ret at 1. cbv beta iota.
      unfold bind at 1, geocode_address_nominatim at 1. rewrite Hcc.
      unfold bind, sleep, lift, ret. destruct (geodesic_km user c); reflexivity. }
    destruct (geodesic_km user c) as [d|e].
    + rewrite (bind_ok _ _ _ _ _ Hb) in H.
      destruct (IH (ds0 ++ [Some d]) (emit s (Sleep 1))) with (2 := H) as (H1 & H2 & H3).
      { intros j r' Hj. apply (Hc j r'). right. exact Hj. }
      auto.
    + rewrite (bind_err _ _ _ _ _ Hb) in H. injection H as <- <-.
      split; [reflexivity|]. split; [reflexivity|]. discriminate.
Qed.

(** A first pass that completes with a geocoder that finds the full
    address of every row leaves every one of those addresses in the
    cache. *)
Lemma pass1_loop_caches genv geolocator geodesic_km district user xs acc s acc' s1 :
  genv !! "DISTRICT"%string = Some district ->
  (forall n i row, In (i, row) xs -> exists c, geolocator n (full_address row district) = GFound c) ->
  for_each xs acc (pass1_body genv geolocator geodesic_km user) s = (Ok acc', s1) ->
  forall i row, In (i, row) xs -> is_Some (cache s1 !! full_address row district).
Proof.
  intros Hd. revert acc s. induction xs as [|[i0 row0] xs IH]; intros acc s Hf H; simpl in H.
  - intros i row [].
  - destruct acc as [ds ms].
    set (a := full_address row0 district).
    apply bind_ok_inv in H as (acc2 & s2 & Hb & H).
    assert (Hin : is_Some (cache s2 !! a)).
    { unfold pass1_body in Hb.
      apply bind_ok_inv in Hb as (dist & s3 & Hl & Hb).
      unfold lookup_global in Hl. rewrite Hd in Hl. unfold ret in Hl. injection Hl as <- <-.
      apply bind_ok_inv in Hb as (c & s4 & Hg & Hb). fold a in Hg.
      apply bind_ok_inv in Hb as (u & s5 & Hs & Hb). unfold sleep in Hs. injection Hs as _ <-.
      assert (Hc2 : cache s2 = cache s4).
      { destruct c as [cs|].
        - apply bind_ok_inv in Hb as (k & s6 & Hk & Hb). unfold lift in Hk. injection Hk as _ <-.
          unfold ret in Hb. injection Hb as _ <-. reflexivity.
        - unfold ret in Hb. injection Hb as _ <-. reflexivity. }
      rewrite Hc2.
      apply geocode_cache in Hg as Hg'. destruct Hg' as [Hs|(c' & _ & _ & _ & ->)].
      - revert Hg. unfold geocode_address_nominatim. rewrite <- Hs.
        destruct (cache s4 !! a) as [c0|] eqn:Hc0; [intros _; exists c0; reflexivity|].
        destruct (Hf (ncalls s) i0 row0 (or_introl eq_refl)) as [c1 Hc1].
        fold a in Hc1. rewrite Hc1. intros E. injection E as _ E.
        rewrite <- E in Hc0. simpl in Hc0. rewrite lookup_insert_eq in Hc0. discriminate.
      - rewrite lookup_insert_eq. eexists; reflexivity. }
    intros i row [E|Hrest].
    + injection E as <- <-. fold a.
      assert (Hmono : cache s2 ⊆ cache s1).
      { refine (preserves_for_each (fun st => cache s2 ⊆ cache st) xs acc2
                  (pass1_body genv geolocator geodesic_km user) _ s2 _ s1 _ H).
        - intros x b. apply preserves_pass1_body.
          + intros st ev Hst. exact Hst.
          + intros a'. apply preserves_geocode_cache.
        - reflexivity. }
      destruct Hin as [c Hc]. exists c. eapply lookup_weaken; eassumption.
    + eapply IH; [|exact H|exact Hrest].
      intros n j r' Hj. apply (Hf n j r'). right. exact Hj.
Qed.

(** ** Counting external calls *)

Lemma costs_mono k k' {A} (m : M A) : k <= k' -> costs k m -> costs k' m.
Proof. intros Hk Hm s r s' H. specialize (Hm s r s' H). lia. Qed.

Lemma costs_bind k1 k2 k {A B} (m : M A) (f : A -> M B) :
  k1 + k2 <= k -> costs k1 m -> (forall a, costs k2 (f a)) -> costs k (bind m f).
Proof.
  intros Hk Hm Hf s r s' H. apply bind_inv in H as [(e & H & _)|(a & s1 & H1 & H2)].
  - specialize (Hm _ _ _ H). lia.
  - specialize (Hm _ _ _ H1). specialize (Hf a _ _ _ H2). lia.
Qed.

Lemma costs_bind_dep k1 k2 k {A B} (m : M A) (f : A -> M B) :
  k1 + k2 <= k -> costs k1 m ->
  (forall a s0 s1, m s0 = (Ok a, s1) -> costs k2 (f a)) -> costs k (bind m f).
Proof.
  intros Hk Hm Hf s r s' H. apply bind_inv in H as [(e & H & _)|(a & s1 & H1 & H2)].
  - specialize (Hm _ _ _ H). lia.
  - specialize (Hf a _ _ H1 _ _ _ H2). specialize (Hm _ _ _ H1). lia.
Qed.

Lemma costs_ret {A} (a : A) : costs 0 (ret a).
Proof. intros s r s' H. injection H as _ <-. lia. Qed.

Lemma costs_lift {A} (x : res A) : costs 0 (lift x).
Proof. intros s r s' H. injection H as _ <-. lia. Qed.

Lemma costs_sleep n : costs 0 (sleep n).
Proof. intros s r s' H. injection H as _ <-. simpl. lia. Qed.

Lemma costs_save : costs 0 save_cache.
Proof. intros s r s' H. injection H as _ <-. simpl. lia. Qed.

Lemma costs_lookup_global genv name : costs 0 (lookup_global genv name).
Proof. intros s r s' H. apply lookup_global_state in H. subst. lia. Qed.

Lemma costs_geocode geolocator a : costs 1 (geocode_address_nominatim geolocator a).
Proof.
  intros s r s' H. apply geocode_update in H as [_ [(_ & -> & _)|(_ & -> & _)]]; lia.
Qed.

Lemma costs_for_each {A S} (xs : list A) (acc : S) body :
  (forall x a, costs 1 (body x a)) -> costs (length xs) (for_each xs acc body).
Proof.
  intros Hb. revert acc. induction xs as [|x xs IH]; intros acc; simpl.
  - apply costs_ret.
  - apply (costs_bind 1 (length xs)); [lia|apply Hb|intros a; apply IH].
Qed.

Lemma costs_pass1_body genv geolocator geodesic_km user x acc :
  costs 1 (pass1_body genv geolocator geodesic_km user x acc).
Proof.
  destruct x as [i row], acc as [ds ms]. unfold pass1_body.
  apply (costs_bind 0 1); [lia|apply costs_lookup_global|intros district].
  apply (costs_bind 1 0); [lia|apply costs_geocode|intros c].
  apply (costs_bind 0 0); [lia|apply costs_sleep|intros _].
  destruct c; [apply (costs_bind 0 0); [lia|apply costs_lift|intros; apply costs_ret]|apply costs_ret].
Qed.

Lemma costs_pass2_body genv geolocator geodesic_km user d acc :
  costs 1 (pass2_body genv geolocator geodesic_km user d acc).
Proof.
  unfold pass2_body.
  apply (costs_bind 0 1); [lia|apply costs_lookup_global|intros district].
  apply (costs_bind 1 0); [lia|apply costs_geocode|intros c].
  apply (costs_bind 0 0); [lia|apply costs_sleep|intros _].
  destruct c; [apply (costs_bind 0 0); [lia|apply costs_lift|intros; apply costs_ret]|apply costs_ret].
Qed.

Lemma costs_pass1 genv geolocator geodesic_km user rs :
  costs (length rs) (pass1 genv geolocator geodesic_km user rs).
Proof.
  unfold pass1. rewrite <- iterrows_length. apply costs_for_each.
  intros. apply costs_pass1_body.
Qed.

(** After the first pass, [process] calls the geocoder at most once per
    row marked missing. *)
Lemma process_rest_tail_costs genv geolocator geodesic_km df user prio s r s' ds ms s1 :
  process_rest genv geolocator geodesic_km df user prio s = (r, s') ->
  pass1 genv geolocator geodesic_km user (rows df) s = (Ok (ds, ms), s1) ->
  ncalls s' <= ncalls s1 + length ms.
Proof.
  unfold process_rest. intros H Hp. rewrite (bind_ok _ _ _ _ _ Hp) in H. cbv beta iota in H.
  match type of H with ?m ?st = _ => assert (Hc : costs (length ms) m) end.
  { apply (costs_bind 0 (length ms)); [lia|apply costs_save|intros _].
    apply (costs_bind 0 (length ms)); [lia|apply costs_lift|intros dfd].
    apply (costs_bind_dep 0 (length ms)); [lia|apply costs_lift|intros dfm s2 s3 Hl].
    unfold lift in Hl. injection Hl as Hl _. apply mapR_length in Hl.
    apply (costs_bind 0 (length ms)); [lia|apply costs_lift|intros vp].
    apply (costs_bind (length ms) 0); [lia| |intros mds].
    { rewrite <- Hl. apply costs_for_each. intros. apply costs_pass2_body. }
    apply (costs_bind 0 0); [lia|apply costs_lift|intros dfm'].
    apply (costs_bind 0 0); [lia|apply costs_lift|intros mp].
    apply costs_ret. }
  exact (Hc _ _ _ H).
Qed.

Lemma pass1_missing_length genv geolocator geodesic_km user rs s ds ms s1 :
  pass1 genv geolocator geodesic_km user rs s = (Ok (ds, ms), s1) -> length ms <= length rs.
Proof.
  intros H. apply pass1_inv in H as [Hl ->]. rewrite length_map.
  etransitivity; [apply filter_length_le|].
  unfold dfd_of. rewrite length_zip_with, iterrows_length. lia.
Qed.

(** The state after [process] when [user_coords] is falsy. *)
Lemma process_None_state genv geolocator geodesic_km df prio s :
  process genv geolocator geodesic_km df None prio s
    = (Ok None, if has_required_columns df then loaded s else s).
Proof.
  unfold process. destruct (has_required_columns df); simpl; [|reflexivity].
  unfold bind, load_cache, assign_cache, ret, loaded. destruct (disk s); reflexivity.
Qed.

Lemma ncalls_mono_process_rest genv geolocator geodesic_km df user prio s r s' :
  process_rest genv geolocator geodesic_km df user prio s = (r, s') -> ncalls s <= ncalls s'.
Proof.
  intros H. refine (preserves_process_rest (fun st => ncalls s <= ncalls st) genv geolocator
    geodesic_km _ _ df user prio _ s r s' _ H).
  - intros st ev Hst. exact Hst.
  - intros a. apply preserves_geocode_ncalls.
  - intros st r' st' Hst E. injection E as _ <-. exact Hst.
  - reflexivity.
Qed.

Lemma process_ncalls_mono genv geolocator geodesic_km df uc prio s r s' :
  process genv geolocator geodesic_km df uc prio s = (r, s') -> ncalls s <= ncalls s'.
Proof.
  destruct uc as [user|].
  - rewrite process_Some_eq. destruct (has_required_columns df).
    + intros H. exact (ncalls_mono_process_rest _ _ _ _ _ _ _ _ _ H).
    + intros H. injection H as _ <-. lia.
  - rewrite process_None_state. intros H. injection H as _ <-.
    destruct (has_required_columns df); simpl; lia.
Qed.

(** ** Whole-run helpers *)

Lemma in_iterrows_2 rs r : In r rs -> exists i, In (i, r) (iterrows rs).
Proof.
  unfold iterrows. generalize 0. induction rs as [|x rs IH]; intros n H; simpl in *; [contradiction|].
  destruct H as [<-|H]; [exists n; left; reflexivity|].
  destruct (IH (S n) H) as [i Hi]. exists i. right. exact Hi.
Qed.

Lemma pass1_loop_found_ok genv geolocator geodesic_km district user D xs acc s :
  genv !! "DISTRICT"%string = Some district ->
  (forall n i row, In (i, row) xs -> exists c, geolocator n (full_address row district) = GFound c) ->
  (forall c, met geolocator D c -> exists d, geodesic_km user c = Ok d) ->
  cache_met geolocator D s ->
  exists acc' s1, for_each xs acc (pass1_body genv geolocator geodesic_km user) s = (Ok acc', s1).
Proof.
  intros Hd Hf0 Hgeo. revert acc s.
  assert (Hf : forall n i row, In (i, row) xs ->
                 exists c, geolocator n (full_address row district) = GFound c) by exact Hf0.
  clear Hf0. induction xs as [|[i row] xs IH]; intros acc s Hinv; simpl; [eauto|].
  destruct acc as [ds ms].
  assert (Hb : exists acc' s2,
             pass1_body genv geolocator geodesic_km user (i, row) (ds, ms) s = (Ok acc', s2) /\
             cache_met geolocator D s2).
  { unfold pass1_body, lookup_global. rewrite Hd. unfold bind at 1, ret at 1. cbv beta iota.
    unfold bind at 1.
    destruct (geocode_address_nominatim geolocator (full_address row district) s)
      as [[c|e] s2] eqn:Hg.
    - destruct (geocode_met _ _ _ _ _ _ Hinv Hg) as [Hinv2 Hc].
      unfold bind, sleep, ret, lift. destruct c as [cs|]; [|eauto].
      destruct (Hgeo cs (Hc cs eq_refl)) as [k ->]. eauto.
    - exfalso. revert Hg. unfold geocode_address_nominatim.
      destruct (cache s !! full_address row district); [discriminate|].
      destruct (Hf (ncalls s) i row (or_introl eq_refl)) as [c1 ->]. discriminate. }
  destruct Hb as (acc' & s2 & Hb & Hinv2). rewrite (bind_ok _ _ _ _ _ Hb). apply IH; [|exact Hinv2].
  intros n j r' Hj. apply (Hf n j r'). right. exact Hj.
Qed.

Lemma geocode_miss_calls geolocator a s r s' :
  cache s !! a = None ->
  geocode_address_nominatim geolocator a s = (r, s') ->
  ncalls s' = S (ncalls s) /\ disk s' = disk s.
Proof.
  intros Hc. unfold geocode_address_nominatim. rewrite Hc.
  destruct (geolocator (ncalls s) a) as [c| |e];
    [|idtac|destruct (is_Exception e)]; intros H; injection H as _ <-; auto.
Qed.

(** Entries of the cache file after a run that were not in it before are
    full addresses of rows, with coordinates the geocoder returned. *)
Lemma process_file_entries genv geolocator geodesic_km df uc prio s r s' :
  process genv geolocator geodesic_km df uc prio s = (r, s') ->
  forall k v, disk_map s' !! k = Some v -> disk_map s !! k = Some v \/
    exists row district n, In row (rows df) /\ genv !! "DISTRICT"%string = Some district /\
      k = full_address row district /\ geolocator n k = GFound v.
Proof.
  intros H k v Hk. destruct uc as [user|].
  - rewrite process_Some_eq in H. destruct (has_required_columns df).
    + apply process_rest_disk in H.
      destruct (pass1 genv geolocator geodesic_km user (rows df) (loaded s)) as [[a|e] s1] eqn:Hp.
      * unfold disk_map in Hk. rewrite H in Hk.
        refine (pass1_new_entries _ _ _ _ _ (disk_map s) _ _ _ Hp _ k v Hk).
        intros k' v' Hk'. left. exact Hk'.
      * left. unfold disk_map in *. rewrite H in Hk. exact Hk.
    + injection H as _ <-. left. exact Hk.
  - rewrite process_None_state in H. injection H as _ <-. left.
    destruct (has_required_columns df); exact Hk.
Qed.

Lemma process_file_mono genv geolocator geodesic_km df uc prio s r s' :
  process genv geolocator geodesic_km df uc prio s = (r, s') -> disk_map s ⊆ disk_map s'.
Proof.
  intros H. destruct uc as [user|].
  - rewrite process_Some_eq in H. destruct (has_required_columns df).
    + apply process_rest_disk in H.
      destruct (pass1 genv geolocator geodesic_km user (rows df) (loaded s)) as [[a|e] s1] eqn:Hp.
      * unfold disk_map at 2. rewrite H. exact (pass1_cache_mono _ _ _ _ _ _ _ _ Hp).
      * unfold disk_map. rewrite H. reflexivity.
    + injection H as _ <-. reflexivity.
  - rewrite process_None_state in H. injection H as _ <-.
    destruct (has_required_columns df); reflexivity.
Qed.

Lemma process_all_cached genv geolocator geodesic_km df uc prio s r s' district :
  genv !! "DISTRICT"%string = Some district ->
  (forall row, In row (rows df) -> is_Some (disk_map s !! full_address row district)) ->
  process genv geolocator geodesic_km df uc prio s = (r, s') -> ncalls s' = ncalls s.
Proof.
  intros Hd Hc H. pose proof (process_ncalls_mono _ _ _ _ _ _ _ _ _ H) as Hm.
  destruct uc as [user|].
  - rewrite process_Some_eq in H. destruct (has_required_columns df).
    + destruct (pass1 genv geolocator geodesic_km user (rows df) (loaded s)) as [r1 s1] eqn:Hp.
      destruct (pass1_loop_hits genv geolocator geodesic_km district user (iterrows (rows df))
                  [] [] (loaded s) r1 s1 Hd) as (_ & Hn & Hms); [|exact Hp|].
      { intros i row Hin. apply Hc. eapply in_iterrows; exact Hin. }
      destruct r1 as [[ds ms]|e].
      * pose proof (process_rest_tail_costs _ _ _ _ _ _ _ _ _ _ _ _ H Hp) as Ht.
        rewrite (Hms ds ms eq_refl) in Ht. simpl in Ht. simpl in Hn. lia.
      * unfold process_rest in H. rewrite (bind_err _ _ _ _ _ Hp) in H. injection H as _ <-.
        exact Hn.
    + injection H as _ <-. reflexivity.
  - rewrite process_None_state in H. injection H as _ <-.
    destruct (has_required_columns df); reflexivity.
Qed.

(** ** Further properties of the code *)

(** X1: one resolve never writes the cache file and issues at most one
    external call. It either leaves the cache dict as it was, or the
    address was absent, the geocoder found it, and the dict gains exactly
    that address with the returned coordinates: an entry is never
    overwritten and a failed lookup is never cached. *)
Theorem resolve_only_adds geolocator a s r s' :
  geocode_address_nominatim geolocator a s = (r, s') ->
  disk s' = disk s /\ ncalls s' <= S (ncalls s) /\
  (cache s' = cache s \/
   exists c, cache s !! a = None /\ r = Ok (Some c) /\ cache s' = <[a:=c]> (cache s)).
Proof.
  intros H. pose proof (geocode_update _ _ _ _ _ H) as [Hd Hn].
  split; [exact Hd|split].
  - destruct Hn as [(_ & -> & _)|(_ & -> & _)]; lia.
  - apply geocode_cache in H as [->|(c & Hc & _ & Hr & ->)]; [left; reflexivity|right; eauto].
Qed.

Lemma resolve_only_adds_witness :
  geocode_address_nominatim demo_geocoder "T, M, Bapatla, Andhra Pradesh" empty_state
    = (Ok (Some (5, 5)%Z),
       snd (geocode_address_nominatim demo_geocoder "T, M, Bapatla, Andhra Pradesh" empty_state)) /\
  let s' := snd (geocode_address_nominatim demo_geocoder "T, M, Bapatla, Andhra Pradesh"
                   empty_state) in
  disk s' = disk empty_state /\ ncalls s' <= S (ncalls empty_state) /\
  (cache s' = cache empty_state \/
   exists c, cache empty_state !! "T, M, Bapatla, Andhra Pradesh"%string = None /\
     @Ok (option coords) (Some (5, 5)%Z) = Ok (Some c) /\
     cache s' = <["T, M, Bapatla, Andhra Pradesh":=c]> (cache empty_state)).
Proof.
  assert (H : geocode_address_nominatim demo_geocoder "T, M, Bapatla, Andhra Pradesh" empty_state
    = (Ok (Some (5, 5)%Z),
       snd (geocode_address_nominatim demo_geocoder "T, M, Bapatla, Andhra Pradesh" empty_state)))
    by (vm_compute; reflexivity).
  split; [exact H|].
  exact (resolve_only_adds _ _ _ _ _ H).
Defined.

(** X2: on a spreadsheet with the required columns and no rows, [process]
    succeeds with an empty table whatever the module globals (so also as
    shipped, where [DISTRICT] is unbound): it makes no external call and
    no sleep, and writes the loaded cache back to the file once. *)
Theorem process_empty_frame genv geolocator geodesic_km cols user prio s :
  has_required_columns (mkInFrame cols []) = true ->
  process genv geolocator geodesic_km (mkInFrame cols []) (Some user) prio s
    = (Ok (Some []),
       mkSt (disk_map s) (Some (disk_map s)) (ncalls s) (trace s ++ [SaveCache (disk_map s)])).
Proof. intros H. rewrite process_Some_eq, H. reflexivity. Qed.

Lemma process_empty_frame_witness :
  has_required_columns (mkInFrame demo_columns []) = true /\
  process app_globals demo_geocoder demo_km (mkInFrame demo_columns []) (Some (0, 0)%Z)
    default_priority demo_file_state
    = (Ok (Some []),
       mkSt (disk_map demo_file_state) (Some (disk_map demo_file_state)) (ncalls demo_file_state)
         (trace demo_file_state ++ [SaveCache (disk_map demo_file_state)])).
Proof.
  split; [reflexivity|].
  apply process_empty_frame. reflexivity.
Defined.

(** X3: [process] returns [None] only at its two early exits (a required
    column is missing, or [user_coords] is falsy), and then it has made
    no external call, written nothing to the cache file and neither slept
    nor printed. *)
Theorem process_None_early_exit genv geolocator geodesic_km df uc prio s s' :
  process genv geolocator geodesic_km df uc prio s = (Ok None, s') ->
  (has_required_columns df = false \/ uc = None) /\
  ncalls s' = ncalls s /\ disk s' = disk s /\ trace s' = trace s.
Proof.
  destruct uc as [user|].
  - rewrite process_Some_eq. destruct (has_required_columns df) eqn:Hc.
    + intros H. exfalso. unfold process_rest in H.
      apply bind_ok_inv in H as ([ds ms] & s1 & _ & H). cbv beta iota zeta in H.
      repeat (apply bind_ok_inv in H as (? & ? & _ & H); cbv beta iota zeta in H).
      unfold ret in H. discriminate.
    + intros H. injection H as <-. auto.
  - rewrite process_None_state. intros H. injection H as <-.
    split; [right; reflexivity|]. destruct (has_required_columns df); auto.
Qed.

Lemma process_None_early_exit_witness :
  process bapatla_globals demo_geocoder demo_km (mkInFrame ["School"; "Mandal"]%string [])
    (Some (0, 0)%Z) default_priority empty_state = (Ok None, empty_state) /\
  (has_required_columns (mkInFrame ["School"; "Mandal"]%string []) = false \/
   Some (0, 0)%Z = None) /\
  ncalls empty_state = ncalls empty_state /\ disk empty_state = disk empty_state /\
  trace empty_state = trace empty_state.
Proof.
  assert (H : process bapatla_globals demo_geocoder demo_km (mkInFrame ["School"; "Mandal"]%string [])
                (Some (0, 0)%Z) default_priority empty_state = (Ok None, empty_state))
    by reflexivity.
  split; [exact H|]. exact (process_None_early_exit _ _ _ _ _ _ _ _ H).
Defined.

(** X4: whatever its outcome, a run of [process] never removes or changes
    an entry of the cache file: every address the file maps to some
    coordinates before the run, it maps to the same coordinates after. *)
Theorem process_keeps_file_entries genv geolocator geodesic_km df uc prio s r s' k v :
  process genv geolocator geodesic_km df uc prio s = (r, s') ->
  disk_map s !! k = Some v -> disk_map s' !! k = Some v.
Proof.
  intros H Hk. eapply lookup_weaken; [exact Hk|].
  exact (process_file_mono _ _ _ _ _ _ _ _ _ H).
Qed.

Lemma process_keeps_file_entries_witness :
  process bapatla_globals demo_geocoder demo_km demo_df (Some (0, 0)%Z) default_priority
    demo_file_state
    = (Ok (Some demo_out),
       snd (process bapatla_globals demo_geocoder demo_km demo_df (Some (0, 0)%Z)
              default_priority demo_file_state)) /\
  disk_map demo_file_state !! "T, M, Bapatla, Andhra Pradesh"%string = Some (5, 5)%Z /\
  disk_map (snd (process bapatla_globals demo_geocoder demo_km demo_df (Some (0, 0)%Z)
                   default_priority demo_file_state)) !! "T, M, Bapatla, Andhra Pradesh"%string
    = Some (5, 5)%Z.
Proof.
  assert (H : process bapatla_globals demo_geocoder demo_km demo_df (Some (0, 0)%Z) default_priority
                demo_file_state
              = (Ok (Some demo_out),
                 snd (process bapatla_globals demo_geocoder demo_km demo_df (Some (0, 0)%Z)
                        default_priority demo_file_state))) by (vm_compute; reflexivity).
  assert (Hk : disk_map demo_file_state !! "T, M, Bapatla, Andhra Pradesh"%string = Some (5, 5)%Z)
    by (vm_compute; reflexivity).
  split; [exact H|]. split; [exact Hk|].
  exact (process_keeps_file_entries _ _ _ _ _ _ _ _ _ _ _ H Hk).
Defined.

(** X5: every entry a run of [process] adds to the cache file is the full
    address [School, Mandal, DISTRICT, Andhra Pradesh] of a spreadsheet
    row, mapped to coordinates the geocoder returned for that address:
    the run saves no Mandal-only address and nothing else. *)
Theorem process_file_new_entries genv geolocator geodesic_km df uc prio s r s' k v :
  process genv geolocator geodesic_km df uc prio s = (r, s') ->
  disk_map s !! k = None -> disk_map s' !! k = Some v ->
  exists row district n, In row (rows df) /\ genv !! "DISTRICT"%string = Some district /\
    k = full_address row district /\ geolocator n k = GFound v.
Proof.
  intros H Hn Hk.
  destruct (process_file_entries _ _ _ _ _ _ _ _ _ H k v Hk) as [E|E]; [congruence|exact E].
Qed.

Lemma process_file_new_entries_witness :
  process bapatla_globals demo_geocoder demo_km demo_df (Some (0, 0)%Z) default_priority empty_state
    = (Ok (Some demo_out),
       snd (process bapatla_globals demo_geocoder demo_km demo_df (Some (0, 0)%Z)
              default_priority empty_state)) /\
  disk_map empty_state !! "T, M, Bapatla, Andhra Pradesh"%string = None /\
  disk_map (snd (process bapatla_globals demo_geocoder demo_km demo_df (Some (0, 0)%Z)
                   default_priority empty_state)) !! "T, M, Bapatla, Andhra Pradesh"%string
    = Some (5, 5)%Z /\
  exists row district n, In row (rows demo_df) /\
    bapatla_globals !! "DISTRICT"%string = Some district /\
    "T, M, Bapatla, Andhra Pradesh"%string = full_address row district /\
    demo_geocoder n "T, M, Bapatla, Andhra Pradesh" = GFound (5, 5)%Z.
Proof.
  assert (H : process bapatla_globals demo_geocoder demo_km demo_df (Some (0, 0)%Z)
                default_priority empty_state
              = (Ok (Some demo_out),
                 snd (process bapatla_globals demo_geocoder demo_km demo_df (Some (0, 0)%Z)
                        default_priority empty_state))) by (vm_compute; reflexivity).
  assert (Hn : disk_map empty_state !! "T, M, Bapatla, Andhra Pradesh"%string = None)
    by reflexivity.
  assert (Hk : disk_map (snd (process bapatla_globals demo_geocoder demo_km demo_df (Some (0, 0)%Z)
                   default_priority empty_state)) !! "T, M, Bapatla, Andhra Pradesh"%string
                = Some (5, 5)%Z) by (vm_compute; reflexivity).
  split; [exact H|]. split; [exact Hn|]. split; [exact Hk|].
  exact (process_file_new_entries _ _ _ _ _ _ _ _ _ _ _ H Hn Hk).
Defined.

(** X6: whatever its outcome, a run of [process] makes at most two
    external geocoder calls per spreadsheet row: one for the full
    address, and one for the Mandal-only address of a row not found by
    the first. *)
Theorem process_call_bound genv geolocator geodesic_km df uc prio s r s' :
  process genv geolocator geodesic_km df uc prio s = (r, s') ->
  ncalls s' <= ncalls s + 2 * length (rows df).
Proof.
  destruct uc as [user|].
  - rewrite process_Some_eq. destruct (has_required_columns df); [|intros H; injection H as _ <-; lia].
    intros H.
    destruct (pass1 genv geolocator geodesic_km user (rows df) (loaded s)) as [[[ds ms]|e] s1] eqn:Hp.
    + pose proof (process_rest_tail_costs _ _ _ _ _ _ _ _ _ _ _ _ H Hp).
      pose proof (costs_pass1 genv geolocator geodesic_km user (rows df) _ _ _ Hp).
      pose proof (pass1_missing_length _ _ _ _ _ _ _ _ _ Hp). simpl in *. lia.
    + unfold process_rest in H. rewrite (bind_err _ _ _ _ _ Hp) in H. injection H as _ <-.
      pose proof (costs_pass1 genv geolocator geodesic_km user (rows df) _ _ _ Hp). simpl in *. lia.
  - rewrite process_None_state. intros H. injection H as _ <-.
    destruct (has_required_columns df); simpl; lia.
Qed.

Lemma process_call_bound_witness :
  process bapatla_globals demo_geocoder demo_km demo_df (Some (0, 0)%Z) default_priority empty_state
    = (Ok (Some demo_out),
       snd (process bapatla_globals demo_geocoder demo_km demo_df (Some (0, 0)%Z)
              default_priority empty_state)) /\
  ncalls (snd (process bapatla_globals demo_geocoder demo_km demo_df (Some (0, 0)%Z)
                 default_priority empty_state))
    <= ncalls empty_state + 2 * length (rows demo_df).
Proof.
  assert (H : process bapatla_globals demo_geocoder demo_km demo_df (Some (0, 0)%Z)
                default_priority empty_state
              = (Ok (Some demo_out),
                 snd (process bapatla_globals demo_geocoder demo_km demo_df (Some (0, 0)%Z)
                        default_priority empty_state))) by (vm_compute; reflexivity).
  split; [exact H|]. exact (process_call_bound _ _ _ _ _ _ _ _ _ H).
Defined.

(** X7: when [DISTRICT] is bound and the cache file already holds the
    full address of every row, a run of [process] makes no external
    geocoder call at all, whatever its outcome: every row is found in
    the cache on the first pass, so the Mandal-only pass has no row. *)
Theorem process_all_cached_no_calls genv geolocator geodesic_km df uc prio s r s' district :
  genv !! "DISTRICT"%string = Some district ->
  (forall row, In row (rows df) -> is_Some (disk_map s !! full_address row district)) ->
  process genv geolocator geodesic_km df uc prio s = (r, s') ->
  ncalls s' = ncalls s.
Proof. intros Hd Hc H. exact (process_all_cached _ _ _ _ _ _ _ _ _ _ Hd Hc H). Qed.

Lemma process_all_cached_no_calls_witness :
  bapatla_globals !! "DISTRICT"%string = Some "Bapatla"%string /\
  (forall row, In row (rows demo_df) ->
     is_Some (disk_map demo_full_file_state !! full_address row "Bapatla")) /\
  ncalls (snd (process bapatla_globals demo_geocoder demo_km demo_df (Some (0, 0)%Z)
                 default_priority demo_full_file_state)) = ncalls demo_full_file_state.
Proof.
  assert (Hd : bapatla_globals !! "DISTRICT"%string = Some "Bapatla"%string)
    by (vm_compute; reflexivity).
  assert (Hc : forall row, In row (rows demo_df) ->
                 is_Some (disk_map demo_full_file_state !! full_address row "Bapatla")).
  { intros row [<-|[<-|[]]]; vm_compute; eexists; reflexivity. }
  split; [exact Hd|]. split; [exact Hc|].
  destruct (process bapatla_globals demo_geocoder demo_km demo_df (Some (0, 0)%Z)
              default_priority demo_full_file_state) as [r s'] eqn:H.
  exact (process_all_cached_no_calls _ _ _ _ _ _ _ _ _ _ Hd Hc H).
Defined.

Lemma demo_found_geocoder_distances :
  forall c, met demo_found_geocoder (disk_map empty_state) c -> exists d, demo_km (0, 0)%Z c = Ok d.
Proof.
  intros c [(n & a & Hg)|(a & Ha)].
  - revert Hg. unfold demo_found_geocoder, demo_geocoder.
    destruct (String.eqb a _); [intros E; injection E as <-; eexists; reflexivity|].
    destruct (String.eqb a _); intros E; injection E as <-; eexists; reflexivity.
  - discriminate.
Qed.

(** X8: two runs of [process] in a row over the same spreadsheet, the
    second starting from the state the first left. Suppose [DISTRICT] is
    bound, the columns are present, the first run's geocoder finds the
    full address of every row, and geopy computes the distance from the
    first run's user coordinates to every coordinate pair that run can
    meet, so its first pass completes. Then the second run makes no
    external geocoder call, whatever geocoder, user coordinates and
    priorities it uses. *)
Theorem process_rerun_no_calls genv geo1 geo2 geodesic_km df u1 u2 prio1 prio2 s r s' district :
  genv !! "DISTRICT"%string = Some district ->
  has_required_columns df = true ->
  (forall n row, In row (rows df) -> exists c, geo1 n (full_address row district) = GFound c) ->
  (forall c, met geo1 (disk_map s) c -> exists d, geodesic_km u1 c = Ok d) ->
  process genv geo1 geodesic_km df (Some u1) prio1 s = (r, s') ->
  ncalls (snd (process genv geo2 geodesic_km df (Some u2) prio2 s')) = ncalls s'.
Proof.
  intros Hd Hc Hf Hgeo H.
  rewrite process_Some_eq, Hc in H.
  pose proof (process_rest_disk _ _ _ _ _ _ _ _ _ H) as Hdisk.
  assert (Hf' : forall n i row, In (i, row) (iterrows (rows df)) ->
                  exists c, geo1 n (full_address row district) = GFound c).
  { intros n i row Hin. apply Hf. eapply in_iterrows. exact Hin. }
  assert (Hinv0 : cache_met geo1 (disk_map s) (loaded s)).
  { intros a c Hac. right. exists a. exact Hac. }
  destruct (pass1_loop_found_ok genv geo1 geodesic_km district u1 (disk_map s)
              (iterrows (rows df)) ([], []) (loaded s) Hd Hf' Hgeo Hinv0) as (acc & s1 & Hp).
  fold (pass1 genv geo1 geodesic_km u1 (rows df)) in Hp.
  rewrite Hp in Hdisk.
  destruct (process genv geo2 geodesic_km df (Some u2) prio2 s') as [r2 s2] eqn:H2. simpl.
  refine (process_all_cached _ _ _ _ _ _ _ _ _ _ Hd _ H2).
  intros row Hrow. unfold disk_map. rewrite Hdisk.
  destruct (in_iterrows_2 _ _ Hrow) as [i Hi].
  exact (pass1_loop_caches _ _ _ _ _ _ _ _ _ _ Hd Hf' Hp i row Hi).
Qed.

Lemma process_rerun_no_calls_witness :
  bapatla_globals !! "DISTRICT"%string = Some "Bapatla"%string /\
  has_required_columns demo_df = true /\
  (forall n row, In row (rows demo_df) ->
     exists c, demo_found_geocoder n (full_address row "Bapatla") = GFound c) /\
  ncalls (snd (process bapatla_globals demo_geocoder demo_km demo_df (Some (1, 1)%Z)
                 [1; 2; 3; 4]%Z
                 (snd (process bapatla_globals
                         demo_found_geocoder
                         demo_km demo_df (Some (0, 0)%Z) default_priority empty_state))))
    = ncalls (snd (process bapatla_globals
                     demo_found_geocoder
                     demo_km demo_df (Some (0, 0)%Z) default_priority empty_state)).
Proof.
  assert (Hd : bapatla_globals !! "DISTRICT"%string = Some "Bapatla"%string)
    by (vm_compute; reflexivity).
  assert (Hc : has_required_columns demo_df = true) by reflexivity.
  assert (Hf : forall n row, In row (rows demo_df) ->
             exists c, demo_found_geocoder n (full_address row "Bapatla") = GFound c).
  { intros n row [<-|[<-|[]]]; vm_compute; eexists; reflexivity. }
  split; [exact Hd|]. split; [exact Hc|].
  split; [exact Hf|].
  destruct (process bapatla_globals
              demo_found_geocoder
              demo_km demo_df (Some (0, 0)%Z) default_priority empty_state) as [r s'] eqn:H.
  exact (process_rerun_no_calls _ _ _ _ _ _ _ _ _ _ _ _ _ Hd Hc Hf
           demo_found_geocoder_distances H).
Defined.

(** X9: in the Streamlit branch for a typed location, the script looks
    the location up through its own cache dict, but [process] reloads the
    cache from the file and saves only its own dict. So a location absent
    from the file (and not equal to a school's full address) is still
    absent from the file after the script has run, whatever the outcome,
    and the script has made an external call for it: each rerun of the
    script geocodes the location again. *)
Theorem ui_location_not_saved genv geolocator geodesic_km df user_location entered s r s' :
  ui_location_branch genv geolocator geodesic_km df user_location entered s = (r, s') ->
  disk_map s !! (user_location ++ ", Andhra Pradesh")%string = None ->
  (forall row district, In row (rows df) -> genv !! "DISTRICT"%string = Some district ->
     full_address row district <> (user_location ++ ", Andhra Pradesh")%string) ->
  disk_map s' !! (user_location ++ ", Andhra Pradesh")%string = None /\
  S (ncalls s) <= ncalls s'.
Proof.
  unfold ui_location_branch. intros H Hn Hf.
  set (a := (user_location ++ ", Andhra Pradesh")%string) in *.
  assert (Hl : load_cache s = (Ok (disk_map s), s))
    by (unfold load_cache, disk_map; destruct (disk s); reflexivity).
  rewrite (bind_ok _ _ _ _ _ Hl) in H.
  unfold bind at 1, assign_cache in H. cbv beta iota in H.
  change (set_cache s (disk_map s)) with (loaded s) in H.
  assert (Hmiss : cache (loaded s) !! a = None) by exact Hn.
  apply bind_inv in H as [(e & Hg & ->)|(uc & s3 & Hg & H)].
  - destruct (geocode_miss_calls _ _ _ _ _ Hmiss Hg) as [Hc Hd].
    split; [unfold disk_map; rewrite Hd; exact Hn|]. simpl in Hc. lia.
  - destruct (geocode_miss_calls _ _ _ _ _ Hmiss Hg) as [Hc Hd]. simpl in Hc.
    destruct uc as [u|].
    + pose proof (process_ncalls_mono _ _ _ _ _ _ _ _ _ H) as Hm.
      split; [|lia].
      destruct (disk_map s' !! a) as [v|] eqn:Hv; [exfalso|reflexivity].
      destruct (process_file_entries _ _ _ _ _ _ _ _ _ H a v Hv)
        as [E|(row & district & n & Hrow & Hdd & Ea & _)].
      * unfold disk_map in E. rewrite Hd in E. change (disk_map s !! a = Some v) in E. congruence.
      * exact (Hf row district Hrow Hdd (eq_sym Ea)).
    + unfold ret in H. injection H as _ <-.
      split; [unfold disk_map; rewrite Hd; exact Hn|lia].
Qed.

Lemma ui_location_not_saved_witness :
  ui_location_branch bapatla_globals demo_geocoder demo_km demo_df "Bapatla" [] empty_state
    = (Ok (Some [(mkRow "T" "M" 1, Some 0%Z); (mkRow "S" "M" 4, Some 7%Z)]%string),
       snd (ui_location_branch bapatla_globals demo_geocoder demo_km demo_df "Bapatla" []
              empty_state)) /\
  disk_map empty_state !! "Bapatla, Andhra Pradesh"%string = None /\
  disk_map (snd (ui_location_branch bapatla_globals demo_geocoder demo_km demo_df "Bapatla" []
                   empty_state)) !! "Bapatla, Andhra Pradesh"%string = None /\
  S (ncalls empty_state)
    <= ncalls (snd (ui_location_branch bapatla_globals demo_geocoder demo_km demo_df "Bapatla" []
                      empty_state)).
Proof.
  assert (H : ui_location_branch bapatla_globals demo_geocoder demo_km demo_df "Bapatla" []
                empty_state
              = (Ok (Some [(mkRow "T" "M" 1, Some 0%Z); (mkRow "S" "M" 4, Some 7%Z)]%string),
                 snd (ui_location_branch bapatla_globals demo_geocoder demo_km demo_df "Bapatla" []
                        empty_state))) by (vm_compute; reflexivity).
  assert (Hn : disk_map empty_state !! "Bapatla, Andhra Pradesh"%string = None) by reflexivity.
  assert (Hf : forall row district, In row (rows demo_df) ->
                 bapatla_globals !! "DISTRICT"%string = Some district ->
                 full_address row district <> ("Bapatla" ++ ", Andhra Pradesh")%string).
  { intros row district Hrow Hd. vm_compute in Hd. injection Hd as <-.
    destruct Hrow as [<-|[<-|[]]]; vm_compute; discriminate. }
  split; [exact H|]. split; [exact Hn|].
  exact (ui_location_not_saved _ _ _ _ _ _ _ _ _ H Hn Hf).
Defined.

(** X10: the cache file after a run of [process] (columns present,
    [user_coords] truthy): if the first pass raised (NameError, an error
    outside Exception from the geocoder, geopy's ValueError for a latitude
    outside [-90, 90]), the file is as it was; once the first pass
    completes, the file holds exactly the cache dict as it stood at the
    end of that pass, whatever happens afterwards (a ValueError or
    KeyError of a later stage, or the Mandal-only pass). *)
Theorem process_saved_file genv geolocator geodesic_km df user prio s r s' :
  has_required_columns df = true ->
  process genv geolocator geodesic_km df (Some user) prio s = (r, s') ->
  match pass1 genv geolocator geodesic_km user (rows df) (loaded s) with
  | (Ok _, s1) => disk s' = Some (cache s1)
  | (Err _, _) => disk s' = disk s
  end.
Proof.
  intros Hc H. rewrite process_Some_eq, Hc in H.
  exact (process_rest_disk _ _ _ _ _ _ _ _ _ H).
Qed.

Lemma process_saved_file_witness :
  (has_required_columns demo_df = true /\
   process bapatla_globals demo_geocoder demo_km demo_df (Some (0, 0)%Z) default_priority empty_state
     = (Ok (Some demo_out),
        snd (process bapatla_globals demo_geocoder demo_km demo_df (Some (0, 0)%Z)
               default_priority empty_state)) /\
   match pass1 bapatla_globals demo_geocoder demo_km (0, 0)%Z (rows demo_df) (loaded empty_state) with
   | (Ok _, s1) =>
       disk (snd (process bapatla_globals demo_geocoder demo_km demo_df (Some (0, 0)%Z)
                    default_priority empty_state)) = Some (cache s1)
   | (Err _, _) =>
       disk (snd (process bapatla_globals demo_geocoder demo_km demo_df (Some (0, 0)%Z)
                    default_priority empty_state)) = disk empty_state
   end) /\
  (fst (process bapatla_globals demo_geocoder demo_km demo_df (Some (100, 0)%Z) default_priority
          demo_file_state) = Err ValueError /\
   match pass1 bapatla_globals demo_geocoder demo_km (100, 0)%Z (rows demo_df)
           (loaded demo_file_state) with
   | (Ok _, s1) =>
       disk (snd (process bapatla_globals demo_geocoder demo_km demo_df (Some (100, 0)%Z)
                    default_priority demo_file_state)) = Some (cache s1)
   | (Err _, _) =>
       disk (snd (process bapatla_globals demo_geocoder demo_km demo_df (Some (100, 0)%Z)
                    default_priority demo_file_state)) = disk demo_file_state
   end).
Proof.
  assert (Hc : has_required_columns demo_df = true) by reflexivity.
  split.
  - assert (H : process bapatla_globals demo_geocoder demo_km demo_df (Some (0, 0)%Z)
                  default_priority empty_state
                = (Ok (Some demo_out),
                   snd (process bapatla_globals demo_geocoder demo_km demo_df (Some (0, 0)%Z)
                          default_priority empty_state))) by (vm_compute; reflexivity).
    split; [exact Hc|]. split; [exact H|].
    exact (process_saved_file _ _ _ _ _ _ _ _ _ Hc H).
  - split; [vm_compute; reflexivity|].
    destruct (process bapatla_globals demo_geocoder demo_km demo_df (Some (100, 0)%Z)
                default_priority demo_file_state) as [r2 s2] eqn:H2.
    exact (process_saved_file _ _ _ _ _ _ _ _ _ Hc H2).
Defined.

(** ** Facts about the concrete inputs *)

Lemma demo_geocoder_no_base_exception :
  forall n a e, demo_geocoder n a = GRaise e -> is_Exception e = true.
Proof.
  intros n a e. unfold demo_geocoder.
  destruct (String.eqb a _); [discriminate|]. destruct (String.eqb a _); discriminate.
Qed.

Lemma demo_geocoder_distances :
  forall c, met demo_geocoder (disk_map empty_state) c -> exists d, demo_km (0, 0)%Z c = Ok d.
Proof.
  intros c [(n & a & Hg)|(a & Ha)].
  - revert Hg. unfold demo_geocoder.
    destruct (String.eqb a _); [discriminate|].
    destruct (String.eqb a _); intros E; injection E as <-; eexists; reflexivity.
  - discriminate.
Qed.

(** ** C9 *)

(** C9 (counterexample): a row whose category 7 is not in the priority
    list [4, 3, 2, 1] makes [process] raise ValueError (from
    [list.index]); no UnknownCategoryError is raised. *)
Lemma process_unknown_category_not_custom_error :
  fst (process bapatla_globals demo_geocoder demo_km
         (mkInFrame demo_columns [mkRow "U" "M" 7]%string) (Some (0, 0)%Z)
         default_priority empty_state) = Err ValueError /\
  fst (process bapatla_globals demo_geocoder demo_km
         (mkInFrame demo_columns [mkRow "U" "M" 7]%string) (Some (0, 0)%Z)
         default_priority empty_state) <> Err (PyExc "UnknownCategoryError" ["Exception"; "BaseException"; "object"]).
Proof. vm_compute. split; [reflexivity|discriminate]. Qed.

(** C9 (amended): when some row's category is absent from the priority
    list, a run that gets past the address loops fails as a whole with
    the ValueError raised by [category_priority.index]. The conditions:
    [DISTRICT] is bound, the geocoder raises only errors of class
    Exception, and geopy computes the distance from the user coordinates
    to every coordinate pair the run can meet (a geocoder result or an
    entry of the cache file), so [geodesic] raises nothing. The failure
    comes after the first pass completed and its cache was saved: no rank
    is invented and no row is dropped silently. *)
Theorem process_unknown_category_ValueError genv geolocator geodesic_km df user prio s district :
  has_required_columns df = true ->
  genv !! "DISTRICT"%string = Some district ->
  (forall n a e, geolocator n a = GRaise e -> is_Exception e = true) ->
  (forall c, met geolocator (disk_map s) c -> exists d, geodesic_km user c = Ok d) ->
  (exists r, In r (rows df) /\ py_index prio (Category r) = None) ->
  fst (process genv geolocator geodesic_km df (Some user) prio s) = Err ValueError /\
  exists acc s1,
    pass1 genv geolocator geodesic_km user (rows df) (loaded s) = (Ok acc, s1) /\
    disk (snd (process genv geolocator geodesic_km df (Some user) prio s)) = Some (cache s1).
Proof.
  intros Hc Hd Hexc Hgeo (r & Hr & Hunk).
  assert (Hinv0 : cache_met geolocator (disk_map s) (loaded s)).
  { intros a c Hac. right. exists a. exact Hac. }
  destruct (pass1_loop_total genv geolocator geodesic_km district Hd Hexc user (disk_map s) Hgeo
              (iterrows (rows df)) ([], []) (loaded s) Hinv0) as ([ds ms] & s1 & Hp & Hinv1).
  fold (pass1 genv geolocator geodesic_km user (rows df)) in Hp.
  split.
  2: { exists (ds, ms), s1. split; [exact Hp|].
       rewrite process_Some_eq, Hc.
       destruct (process_rest genv geolocator geodesic_km df user prio (loaded s)) as [r' s'] eqn:H.
       pose proof (process_rest_disk _ _ _ _ _ _ _ _ _ H) as Hdisk. rewrite Hp in Hdisk.
       exact Hdisk. }
  unfold process. rewrite Hc. cbv beta iota delta [negb].
  rewrite (bind_ok _ _ _ _ _ (load_cache_ok s)).
  unfold bind at 1, assign_cache. cbv beta iota.
  change (set_cache s (match disk s with Some c => c | None => ∅ end)) with (loaded s).
  rewrite (bind_ok _ _ _ _ _ Hp).
  apply pass1_inv in Hp as [Hlen ->]. cbv beta iota zeta.
  unfold bind at 1, save_cache. cbv beta iota.
  unfold bind at 1, lift. rewrite to_drows_set_distance by exact Hlen. cbv beta iota.
  set (dfd := zip_with with_dist (iterrows (rows df)) ds).
  change dfd with (dfd_of (rows df) ds).
  unfold bind at 1. rewrite loc_sublist.
  2: { apply dfd_of_labels; exact Hlen. }
  2: { intros d Hin. apply filter_In in Hin. apply Hin. }
  cbv beta iota.
  assert (Hrd : exists d, In d (dfd_of (rows df) ds) /\ d_row d = r).
  { rewrite <- (dfd_of_rows _ _ Hlen) in Hr. apply in_map_iff in Hr as (d & <- & Hin). eauto. }
  destruct Hrd as (d & Hdin & <-).
  destruct (is_missing d) eqn:Em.
  2: { assert (Herr : add_priority prio (dropna (dfd_of (rows df) ds)) = Err ValueError).
       { apply add_priority_unknown. exists d. split; [|exact Hunk].
         rewrite dropna_filter. apply filter_In. rewrite Em. auto. }
       unfold bind at 1. rewrite Herr. reflexivity. }
  destruct (add_priority prio (dropna (dfd_of (rows df) ds))) as [vp|e] eqn:Ev.
  2: { pose proof (add_priority_err _ _ _ Ev). subst e. reflexivity. }
  unfold bind at 1. cbv beta iota.
  match goal with |- context [bind (for_each ?F [] ?b) _ ?st] =>
    destruct (pass2_loop_total genv geolocator geodesic_km district Hd Hexc user (disk_map s) Hgeo
                F [] st Hinv1)
      as (mds & s2 & Hp2 & Hl2) end.
  rewrite (bind_ok _ _ _ _ _ Hp2).
  destruct (set_distance_len (List.filter is_missing (dfd_of (rows df) ds)) mds)
    as [dfm Hdm]; [simpl in Hl2; exact Hl2|].
  unfold bind at 1. rewrite Hdm. cbv beta iota.
  apply set_distance_ok in Hdm as [_ Hdm].
  assert (Herr : add_priority prio dfm = Err ValueError).
  { apply add_priority_unknown.
    assert (Hin : In (d_idx d, d_row d)
                    (map (fun d => (d_idx d, d_row d)) (List.filter is_missing (dfd_of (rows df) ds)))).
    { apply (in_map (fun d => (d_idx d, d_row d))). apply filter_In. auto. }
    rewrite <- Hdm in Hin. apply in_map_iff in Hin as (d' & Ed' & Hin).
    injection Ed' as _ Er. exists d'. rewrite Er. auto. }
  unfold bind at 1. rewrite Herr. reflexivity.
Qed.

Lemma process_unknown_category_ValueError_witness :
  has_required_columns (mkInFrame demo_columns [mkRow "U" "M" 7]%string) = true /\
  bapatla_globals !! "DISTRICT"%string = Some "Bapatla"%string /\
  fst (process bapatla_globals demo_geocoder demo_km
         (mkInFrame demo_columns [mkRow "U" "M" 7]%string) (Some (0, 0)%Z)
         default_priority empty_state) = Err ValueError.
Proof.
  split; [reflexivity|]. split; [vm_compute; reflexivity|].
  apply (process_unknown_category_ValueError bapatla_globals demo_geocoder demo_km
           (mkInFrame demo_columns [mkRow "U" "M" 7]%string) (0, 0)%Z default_priority
           empty_state "Bapatla"%string).
  - reflexivity.
  - vm_compute. reflexivity.
  - exact demo_geocoder_no_base_exception.
  - exact demo_geocoder_distances.
  - exists (mkRow "U" "M" 7)%string. split; [left; reflexivity|reflexivity].
Defined.
